(** * vmdlib: the VMD (Vocaloid Motion Data) codec of [vmd.c] / [vmd.h]

    A shallow embedding of the loader [VMDLoadFromFile], the writer
    [VMDWriteToFile], the frame sorter [VMDqsort] / [VMDSortAllFrames] and
    the comparison functions, followed by the properties of the
    specification that concern them.

    Conventions of the embedding.
    - A byte is a [Byte.byte]; a heap object or a file is a [list byte].
    - [uint32_t] values are integers in [0, 2^32); every place where the C
      code computes in (or assigns to) [uint32_t] has its wrap-around
      written out with [u32].  Multi-byte fields are read the way a
      little-endian host reads them ([memcpy] of the file's bytes).
    - What C leaves undefined (a read outside the bytes an object holds, a
      read or write through [NULL], a call through a [NULL] function
      pointer) is the outcome [Undefined], with the kind of the fault.
    - The process state that the library touches is a [world]: the global
      [VMD_ERROR], the files [fopen] can see, and the results the coming
      [malloc] calls will have.  Messages printed to [stdout] / [stderr] are
      not part of the model. *)

From Stdlib Require Import ZArith List String Bool Lia Permutation Sorted.
From Stdlib Require Import Strings.Byte.
Import ListNotations.
Open Scope Z_scope.

(* ================================================================== *)
(** ** Bytes and 32-bit unsigned integers *)

Definition block := list byte.

Definition byte_val (b : byte) : Z := Z.of_N (Byte.to_N b).

Definition byte_of (z : Z) : byte :=
  match Byte.of_N (Z.to_N (z mod 256)) with
  | Some b => b
  | None => x00
  end.

Definition u32 (z : Z) : Z := z mod 2 ^ 32.

(** Conversion of an [unsigned int] to [int] (two's complement). *)
Definition to_int (z : Z) : Z :=
  if u32 z <? 2 ^ 31 then u32 z else u32 z - 2 ^ 32.

(** The value of a [uint32_t] stored in four bytes of memory. *)
Definition u32_of_bytes (bs : list byte) : Z :=
  match bs with
  | [b0; b1; b2; b3] =>
      byte_val b0 + 256 * byte_val b1 + 65536 * byte_val b2
      + 16777216 * byte_val b3
  | _ => 0
  end.

(** The four bytes a [uint32_t] occupies in memory. *)
Definition bytes_of_u32 (n : Z) : list byte :=
  [byte_of n; byte_of (n / 256); byte_of (n / 65536); byte_of (n / 16777216)].

(** The bytes [off .. off+len-1] of an object, when it holds them. *)
Definition mem_read (m : block) (off len : Z) : option (list byte) :=
  if (0 <=? off) && (0 <=? len) && (off + len <=? Z.of_nat (List.length m))
  then Some (firstn (Z.to_nat len) (skipn (Z.to_nat off) m))
  else None.

(* ================================================================== *)
(** ** Layout definitions ([vmd.h]) *)

(** Error codes. *)
Definition VMDLIB_E_INIT : Z := 0x0000.
Definition VMDLIB_E_FH : Z := 0x0001.   (* failed to achieve file handler *)
Definition VMDLIB_E_FT : Z := 0x0002.   (* invalid file type *)
Definition VMDLIB_E_ME : Z := 0x0003.   (* memory allocation error *)
Definition VMDLIB_E_IV : Z := 0xffff.   (* invalid call *)

(** The string literal ["Vocaloid Motion Data 0002\0\0\0\0"]: 25 characters,
    four written NULs and the terminating NUL, 30 bytes in all. *)
Definition VMDLIB_MAGIC : list byte :=
  list_byte_of_string "Vocaloid Motion Data 0002" ++ repeat x00 5.

(** A packed struct is the list of its fields' sizes, in order. *)
Definition layout := list (string * Z).

Fixpoint sizeof (l : layout) : Z :=
  match l with
  | [] => 0
  | (_, sz) :: l' => sz + sizeof l'
  end.

Fixpoint offsetof (l : layout) (field : string) : Z :=
  match l with
  | [] => 0
  | (f, sz) :: l' => if String.eqb f field then 0 else sz + offsetof l' field
  end.

Definition VMDHeader_layout : layout :=
  [("header", 30); ("model_name", 20)]%string.

Definition VMDBoneSingleFrame_layout : layout :=
  [("name", 15); ("frame", 4); ("x", 4); ("y", 4); ("z", 4);
   ("qx", 4); ("qy", 4); ("qz", 4); ("qw", 4); ("bezier", 64)]%string.

Definition VMDMorphSingleFrame_layout : layout :=
  [("name", 15); ("frame", 4); ("value", 4)]%string.

Definition VMDCameraSingleFrame_layout : layout :=
  [("frame", 4); ("distance", 4); ("x", 4); ("y", 4); ("z", 4);
   ("rx", 4); ("ry", 4); ("rz", 4); ("bezier", 24); ("viewAngle", 4);
   ("parth", 1)]%string.

Definition VMDLightSingleFrame_layout : layout :=
  [("frame", 4); ("r", 4); ("g", 4); ("b", 4); ("x", 4); ("y", 4);
   ("z", 4)]%string.

Definition VMDShadowSingleFrame_layout : layout :=
  [("frame", 4); ("type", 1); ("distance", 4)]%string.

Definition VMDInfoIK_layout : layout :=
  [("name", 20); ("on_off", 1)]%string.

Definition VMDIKSingleFrame_layout : layout :=
  [("frame", 4); ("show", 1); ("ik_count", 4);
   ("ik", sizeof VMDInfoIK_layout)]%string.

(** [VMDBoneFrames], [VMDMorphFrames], ... , [VMDIKFrames]: a count and a
    pointer to the records.  The records are kept as the raw heap object the
    loader copies them into; [None] is the [NULL] pointer. *)
Record VMDFrames := mkFrames {
  num_frames : Z;
  frames : option block
}.

Record VMDHeader := mkHeader {
  header : list byte;        (* char header[30] *)
  model_name : list byte     (* char model_name[20] *)
}.

(** [VMDFile]; its first member, [header] in C, is [file_header] here. *)
Record VMDFile := mkFile {
  file_header : VMDHeader;
  bone_frames : VMDFrames;
  morph_frames : VMDFrames;
  camera_frames : VMDFrames;
  light_frames : VMDFrames;
  shadow_frames : VMDFrames;
  ik_frames : VMDFrames
}.

(** [sizeof(VMDFile)] with 8-byte pointers: 50 + 6 * (4 + 8). *)
Definition sizeof_VMDFile : Z := sizeof VMDHeader_layout + 6 * (4 + 8).

(** [VMDStructType]: an enum, so any [int] can be passed for it. *)
Definition VMDL_BONE : Z := 0.
Definition VMDL_MORPH : Z := 1.
Definition VMDL_CAMERA : Z := 2.
Definition VMDL_LIGHT : Z := 3.
Definition VMDL_SHADOW : Z := 4.
Definition VMDL_IK : Z := 5.

(* ================================================================== *)
(** ** The process state and the monad of the library's functions *)

(** What [fopen(name, "rb")] finds: the bytes of the file, and whether
    reading them works. *)
Record file := mkDiskFile {
  f_bytes : list byte;
  f_read_ok : bool
}.

Record world := mkWorld {
  VMD_ERROR : Z;                        (* the global error slot *)
  fs_read : string -> option file;      (* files [fopen(_, "rb")] opens *)
  fs_writable : string -> bool;         (* names [fopen(_, "wb")] opens *)
  heap : list bool                      (* results of the coming mallocs;
                                           once exhausted they succeed *)
}.

(** The faults after which C defines no behaviour. *)
Inductive fault : Type :=
| OutOfBoundsRead      (* a read outside the bytes an object holds *)
| NullPointerAccess    (* a read or write through [NULL] *)
| NullFunctionCall.    (* a call through a [NULL] function pointer *)

Inductive outcome (A : Type) : Type :=
| Done (a : A) (w : world)
| Undefined (why : fault).
Arguments Done {A} a w.
Arguments Undefined {A} why.

Definition M (A : Type) : Type := world -> outcome A.

Definition ret {A} (a : A) : M A := fun w => Done a w.

Definition bind {A B} (m : M A) (k : A -> M B) : M B :=
  fun w => match m w with
           | Done a w' => k a w'
           | Undefined why => Undefined why
           end.

Notation "x <- m ;; k" := (bind m (fun x => k))
  (at level 61, m at next level, right associativity).
Notation "m ;;; k" := (bind m (fun _ => k))
  (at level 61, right associativity).

Definition undefined {A} (why : fault) : M A := fun _ => Undefined why.

Definition set_VMD_ERROR (e : Z) : M unit :=
  fun w => Done tt (mkWorld e (fs_read w) (fs_writable w) (heap w)).

Definition fopen_rb (fname : string) : M (option file) :=
  fun w => Done (fs_read w fname) w.

Definition fopen_wb (fname : string) : M bool :=
  fun w => Done (fs_writable w fname) w.

(** [fclose] of a file opened by [fopen_wb] after [data] was written. *)
Definition written (fname : string) (data : list byte) (w : world) : world :=
  mkWorld (VMD_ERROR w)
    (fun n => if String.eqb n fname then Some (mkDiskFile data true)
              else fs_read w n)
    (fs_writable w) (heap w).

Definition fclose_wb (fname : string) (data : list byte) : M unit :=
  fun w => Done tt (written fname data w).

(** [malloc]: [true] when it returns a fresh object, [false] for [NULL]. *)
Definition malloc (size : Z) : M bool :=
  fun w => Done (hd true (heap w))
             (mkWorld (VMD_ERROR w) (fs_read w) (fs_writable w)
                (tl (heap w))).

(** A read of [len] bytes at [m + off].  For the buffer [content] of the
    loader, [m] is the bytes [fread] stored: the one byte [malloc(fsize + 1)]
    adds after them is never written, and reading it counts as reading
    outside the object. *)
Definition load_bytes (m : block) (off len : Z) : M (list byte) :=
  match mem_read m off len with
  | Some bs => ret bs
  | None => undefined OutOfBoundsRead
  end.

Notation "' p <- m ;; k" :=
  (bind m (fun x => match x with p => k end))
  (at level 61, p pattern, m at next level, right associativity).

(* ================================================================== *)
(** ** Header check and comparison functions *)

(** [memcmp(a, b, n) == 0] for two [n]-byte sequences. *)
Fixpoint memcmp_eq (a b : list byte) : bool :=
  match a, b with
  | [], [] => true
  | x :: a', y :: b' => Byte.eqb x y && memcmp_eq a' b'
  | _, _ => false
  end.

(** [__VMDCheckHeader]: compares [sizeof(target->header)] = 30 bytes of the
    data with the magic string. *)
Definition __VMDCheckHeader (data : block) : M bool :=
  target_header <- load_bytes data (offsetof VMDHeader_layout "header") 30 ;;
  if negb (memcmp_eq VMDLIB_MAGIC target_header) then ret false
  else ret true.

(** A comparison function as [qsort] uses it: it is handed the bytes of two
    elements; [None] when it would read outside an element it was handed. *)
Definition comparator := block -> block -> option Z.

(** [p->frame] for a pointer [p] to a record of layout [l]. *)
Definition frame_of (l : layout) (rec : block) : option Z :=
  option_map u32_of_bytes (mem_read rec (offsetof l "frame") 4).

(** [return a->frame - b->frame;] : the difference is taken in
    [uint32_t] and converted to the [int] that is returned. *)
Definition compare_frame_number (l : layout) : comparator :=
  fun a b =>
    match frame_of l a, frame_of l b with
    | Some fa, Some fb => Some (to_int (u32 (fa - fb)))
    | _, _ => None
    end.

Definition __VMDCompareBoneFrameNumber : comparator :=
  compare_frame_number VMDBoneSingleFrame_layout.
Definition __VMDCompareMorphFrameNumber : comparator :=
  compare_frame_number VMDMorphSingleFrame_layout.
Definition __VMDCompareCameraFrameNumber : comparator :=
  compare_frame_number VMDCameraSingleFrame_layout.
Definition __VMDCompareLightFrameNumber : comparator :=
  compare_frame_number VMDLightSingleFrame_layout.
Definition __VMDCompareShadowFrameNumber : comparator :=
  compare_frame_number VMDShadowSingleFrame_layout.
Definition __VMDCompareIKFrameNumber : comparator :=
  compare_frame_number VMDIKSingleFrame_layout.

(* ================================================================== *)
(** ** Sorting *)

(** The first [n] elements of [size] bytes of an array. *)
Fixpoint chunks (n size : nat) (m : block) : list block :=
  match n with
  | O => []
  | S n' => firstn size m :: chunks n' size (skipn size m)
  end.

Definition is_some {A} (o : option A) : bool :=
  match o with Some _ => true | None => false end.

Definition or_zero (o : option Z) : Z :=
  match o with Some z => z | None => 0 end.

Section Sorting.

(** The sorting procedure inside the C library's [qsort], seen on the
    list of the array's elements: it is a parameter of the model, and the
    properties below hold for every procedure that meets the contract
    the C standard gives [qsort] (see [qsort_contract]). *)
Variable libc_sort : (block -> block -> Z) -> list block -> list block.

(** [qsort(base, num, size, compar)] on the object [base] points to;
    the result is the object's content afterwards.  With fewer than two
    elements nothing is compared or moved.  Otherwise the [num] elements of
    [size] bytes must lie inside the object, [compar] is called (a [NULL]
    [compar] is a call through a null pointer) and must find the field it
    reads inside the element it is handed; the elements are rearranged as
    whole [size]-byte units, and the bytes of the object after the array
    stay as they are. *)
Definition qsort (base : block) (num size : Z) (compar : option comparator)
  : M block :=
  if num <=? 1 then ret base
  else
    match compar with
    | None => undefined NullFunctionCall
    | Some cmp =>
        arr <- load_bytes base 0 (num * size) ;;
        let elems := chunks (Z.to_nat num) (Z.to_nat size) arr in
        if forallb (fun e => is_some (cmp e e)) elems
        then ret (List.concat (libc_sort (fun a b => or_zero (cmp a b)) elems)
                    ++ skipn (Z.to_nat (num * size)) base)
        else undefined OutOfBoundsRead
    end.

(** [VMDqsort(data, num, size, type)]; the result is the content of
    [*data] afterwards ([None] for a [NULL] [data]). *)
Definition VMDqsort (data : option block) (num size : Z) (type : Z)
  : M (option block) :=
  match data with
  | None => ret None                 (* message on stderr; return *)
  | Some base =>
      (* select which compare function to use *)
      let funcp :=
        if type =? VMDL_BONE then Some __VMDCompareBoneFrameNumber
        else if type =? VMDL_MORPH then Some __VMDCompareMorphFrameNumber
        else if type =? VMDL_CAMERA then Some __VMDCompareCameraFrameNumber
        else if type =? VMDL_LIGHT then Some __VMDCompareLightFrameNumber
        else if type =? VMDL_SHADOW then Some __VMDCompareShadowFrameNumber
        else if type =? VMDL_IK then Some __VMDCompareIKFrameNumber
        else None                    (* default: message on stderr *)
      in
      sorted <- qsort base num size funcp ;;
      ret (Some sorted)
  end.

Definition sort_frames (fr : VMDFrames) (size type : Z) : M VMDFrames :=
  data <- VMDqsort (frames fr) (num_frames fr) size type ;;
  ret (mkFrames (num_frames fr) data).

(** [VMDSortAllFrames(vf)]; the result is [*vf] afterwards. *)
Definition VMDSortAllFrames (vf : option VMDFile) : M VMDFile :=
  match vf with
  | None => undefined NullPointerAccess
  | Some vf =>
      bone <- sort_frames (bone_frames vf)
                (sizeof VMDBoneSingleFrame_layout) VMDL_BONE ;;
      morph <- sort_frames (morph_frames vf)
                 (sizeof VMDMorphSingleFrame_layout) VMDL_MORPH ;;
      camera <- sort_frames (camera_frames vf)
                  (sizeof VMDCameraSingleFrame_layout) VMDL_CAMERA ;;
      light <- sort_frames (light_frames vf)
                 (sizeof VMDCameraSingleFrame_layout) VMDL_LIGHT ;;
      shadow <- sort_frames (shadow_frames vf)
                  (sizeof VMDCameraSingleFrame_layout) VMDL_SHADOW ;;
      ik <- sort_frames (ik_frames vf)
              (sizeof VMDCameraSingleFrame_layout) VMDL_IK ;;
      ret (mkFile (file_header vf) bone morph camera light shadow ik)
  end.

End Sorting.

(* ================================================================== *)
(** ** Loading *)

(** The statements [VMDLoadFromFile] repeats for each category, [rec_size]
    being the [sizeof] of the category's record: read the count at
    [content + offset], step over it, and copy [cpy_size] bytes of records
    into a fresh object.  [offset] and [cpy_size] are [uint32_t]. *)
Definition load_frames (content : block) (offset rec_size : Z)
  : M (VMDFrames * Z) :=
  cnt <- load_bytes content offset 4 ;;
  let n := u32_of_bytes cnt in
  let offset := u32 (offset + 4) in
  if negb (n =? 0) then
    let cpy_size := u32 (rec_size * n) in
    p <- malloc cpy_size ;;
    if p then
      recs <- load_bytes content offset cpy_size ;;
      ret (mkFrames n (Some recs), u32 (offset + cpy_size))
    else undefined NullPointerAccess    (* memcpy into NULL *)
  else ret (mkFrames n None, offset).

(** [fread(content, fsize, 1, fp) == 0]: no item is read when the item is
    empty or the read fails. *)
Definition fread_fails (f : file) : bool :=
  negb (f_read_ok f) || (Z.of_nat (List.length (f_bytes f)) =? 0).

Definition VMDLoadFromFile (fname : string) : M (option VMDFile) :=
  (* open file and check *)
  fp <- fopen_rb fname ;;
  match fp with
  | None => set_VMD_ERROR VMDLIB_E_FH ;;; ret None
  | Some f =>
      (* check length of file *)
      let fsize := Z.of_nat (List.length (f_bytes f)) in
      (* load entire file, then close *)
      p <- malloc (fsize + 1) ;;
      if negb p then set_VMD_ERROR VMDLIB_E_ME ;;; ret None
      else if fread_fails f then ret None
      else
        let content := f_bytes f in
        (* check file type *)
        ok <- __VMDCheckHeader content ;;
        if negb ok then set_VMD_ERROR VMDLIB_E_FT ;;; ret None
        else
          vf <- malloc sizeof_VMDFile ;;
          if negb vf
          then undefined NullPointerAccess   (* memcpy into &NULL->header *)
          else
            let offset := 0 in
            let cpy_size := sizeof VMDHeader_layout in
            hdr <- load_bytes content 0 cpy_size ;;
            let offset := u32 (offset + cpy_size) in
            ' (bone, offset) <-
              load_frames content offset (sizeof VMDBoneSingleFrame_layout) ;;
            ' (morph, offset) <-
              load_frames content offset (sizeof VMDMorphSingleFrame_layout) ;;
            ' (camera, offset) <-
              load_frames content offset (sizeof VMDCameraSingleFrame_layout) ;;
            ' (light, offset) <-
              load_frames content offset (sizeof VMDLightSingleFrame_layout) ;;
            ' (shadow, offset) <-
              load_frames content offset (sizeof VMDShadowSingleFrame_layout) ;;
            ' (ik, offset) <-
              load_frames content offset (sizeof VMDIKSingleFrame_layout) ;;
            ret (Some (mkFile (mkHeader (firstn 30 hdr) (skipn 30 hdr))
                         bone morph camera light shadow ik))
  end.

(* ================================================================== *)
(** ** Writing *)

(** The statements [VMDWriteToFile] repeats for each category: write the
    count, then, unless [frames] is [NULL], [num_frames] records of
    [rec_size] bytes read from the object [frames] points to. *)
Definition fwrite_frames (fr : VMDFrames) (rec_size : Z) : M (list byte) :=
  let cnt := bytes_of_u32 (num_frames fr) in
  match frames fr with
  | Some blk =>
      recs <- load_bytes blk 0 (rec_size * num_frames fr) ;;
      ret (cnt ++ recs)
  | None => ret cnt
  end.

Definition VMDWriteToFile (vf : option VMDFile) (fname : string) : M bool :=
  match vf with
  | None => set_VMD_ERROR VMDLIB_E_IV ;;; ret false
  | Some vf =>
      (* file check *)
      fp <- fopen_wb fname ;;
      if negb fp then set_VMD_ERROR VMDLIB_E_FH ;;; ret false
      else
        let hdr := header (file_header vf) ++ model_name (file_header vf) in
        bone <- fwrite_frames (bone_frames vf)
                  (sizeof VMDBoneSingleFrame_layout) ;;
        morph <- fwrite_frames (morph_frames vf)
                   (sizeof VMDMorphSingleFrame_layout) ;;
        camera <- fwrite_frames (camera_frames vf)
                    (sizeof VMDCameraSingleFrame_layout) ;;
        light <- fwrite_frames (light_frames vf)
                   (sizeof VMDLightSingleFrame_layout) ;;
        shadow <- fwrite_frames (shadow_frames vf)
                    (sizeof VMDShadowSingleFrame_layout) ;;
        ik <- fwrite_frames (ik_frames vf)
                (sizeof VMDIKSingleFrame_layout) ;;
        fclose_wb fname
          (hdr ++ bone ++ morph ++ camera ++ light ++ shadow ++ ik) ;;;
        ret true
  end.

(* ================================================================== *)
(** ** Display, release and the driver ([example.c]) *)

(** A [char] array holds a NUL, so that [printf("%s", ...)] stops inside
    it. *)
Definition has_nul (s : list byte) : bool := existsb (Byte.eqb x00) s.

(** [VMDDisplayData(vf)]: prints the model name with [%s] and the six
    counts.  The text is not part of the model; what is, is that [vf] is
    dereferenced and that [%s] reads [model_name] up to its first NUL,
    which lies outside the array when the 20 bytes hold none. *)
Definition VMDDisplayData (vf : option VMDFile) : M unit :=
  match vf with
  | None => undefined NullPointerAccess
  | Some d =>
      if has_nul (model_name (file_header d)) then ret tt
      else undefined OutOfBoundsRead
  end.

(** [VMDReleaseVMDFile(vf)]: returns at once for [NULL]; otherwise frees
    the record storage of every category that has some, and the document.
    Objects are values in this model, so the world is left as it is. *)
Definition VMDReleaseVMDFile (vf : option VMDFile) : M unit :=
  match vf with
  | None => ret tt
  | Some _ => ret tt
  end.

Definition EXIT_FAILURE : Z := 1.

(** [main(argc, argv)] of [example.c], [argv] being the [argc] arguments;
    the result is the exit status.  [libc_sort] is the C library's sorting
    procedure, as for [VMDqsort]. *)
Definition main (libc_sort : (block -> block -> Z) -> list block -> list block)
  (argv : list string) : M Z :=
  set_VMD_ERROR VMDLIB_E_INIT ;;;
  (* check args *)
  match argv with
  | [_] => ret EXIT_FAILURE             (* argc == 1 *)
  | [] => undefined OutOfBoundsRead     (* argc == 0: argv[1] is read *)
  | _ :: fname :: _ =>
      vf <- VMDLoadFromFile fname ;;
      match vf with
      | None => ret EXIT_FAILURE
      | Some loaded =>
          sorted <- VMDSortAllFrames libc_sort (Some loaded) ;;
          VMDDisplayData (Some sorted) ;;;
          _ <- VMDWriteToFile (Some sorted) "output.vmd" ;;
          VMDReleaseVMDFile (Some sorted) ;;;
          ret 0
      end
  end.

(* ================================================================== *)
(** ** The contract of the C library's [qsort], and a procedure meeting it *)

(** The comparison function is consistent on the elements of [l]: the
    signs of [cmp a b] and [cmp b a] are opposite, and "not greater" is
    transitive.  The C standard asks this of the function given to [qsort]
    and promises an ascending array only then. *)
Definition consistent_on (cmp : block -> block -> Z) (l : list block) : Prop :=
  (forall a b, In a l -> In b l -> (cmp a b < 0 <-> 0 < cmp b a)) /\
  (forall a b c, In a l -> In b l -> In c l ->
                 cmp a b <= 0 -> cmp b c <= 0 -> cmp a c <= 0).

Definition ascending (cmp : block -> block -> Z) : list block -> Prop :=
  StronglySorted (fun a b => cmp a b <= 0).

Record qsort_contract
  (srt : (block -> block -> Z) -> list block -> list block) : Prop := {
  sort_perm : forall cmp l, consistent_on cmp l -> Permutation l (srt cmp l);
  sort_asc : forall cmp l, consistent_on cmp l -> ascending cmp (srt cmp l)
}.

Fixpoint insert_by (cmp : block -> block -> Z) (x : block) (l : list block)
  : list block :=
  match l with
  | [] => [x]
  | y :: l' => if cmp x y <=? 0 then x :: l else y :: insert_by cmp x l'
  end.

Fixpoint insertion_sort (cmp : block -> block -> Z) (l : list block)
  : list block :=
  match l with
  | [] => []
  | x :: l' => insert_by cmp x (insertion_sort cmp l')
  end.

(* ================================================================== *)
(** ** Vocabulary of the properties *)

(** Every coming [malloc] succeeds. *)
Definition heap_ok (w : world) : Prop := Forall (fun r => r = true) (heap w).

(** [w'] differs from [w] at most by the [malloc]s that happened. *)
Definition steady (w w' : world) : Prop :=
  VMD_ERROR w' = VMD_ERROR w /\ fs_read w' = fs_read w /\
  fs_writable w' = fs_writable w /\ (heap_ok w -> heap_ok w').

(** The image of a category in a file: its count, then its records. *)
Definition frames_image (fr : VMDFrames) : list byte :=
  bytes_of_u32 (num_frames fr)
  ++ match frames fr with Some blk => blk | None => [] end.

(** The image of a document, following the byte layout the specification
    gives for a file: the 50 header bytes, then for each of the six
    categories in the order Bone, Morph, Camera, Light, Shadow, ShowIK its
    4-byte count and its records.  It is what [VMDWriteToFile] is compared
    with ([VMDWriteToFile_wf]). *)
Definition file_image (d : VMDFile) : list byte :=
  header (file_header d) ++ model_name (file_header d)
  ++ frames_image (bone_frames d) ++ frames_image (morph_frames d)
  ++ frames_image (camera_frames d) ++ frames_image (light_frames d)
  ++ frames_image (shadow_frames d) ++ frames_image (ik_frames d).

(** The number of bytes the categories' counts announce, header included. *)
Definition announced_size (d : VMDFile) : Z :=
  sizeof VMDHeader_layout
  + (4 + sizeof VMDBoneSingleFrame_layout * num_frames (bone_frames d))
  + (4 + sizeof VMDMorphSingleFrame_layout * num_frames (morph_frames d))
  + (4 + sizeof VMDCameraSingleFrame_layout * num_frames (camera_frames d))
  + (4 + sizeof VMDLightSingleFrame_layout * num_frames (light_frames d))
  + (4 + sizeof VMDShadowSingleFrame_layout * num_frames (shadow_frames d))
  + (4 + sizeof VMDIKSingleFrame_layout * num_frames (ik_frames d)).

(** What [load_frames] establishes: the count is a [uint32_t]; a zero count
    goes with a [NULL] pointer, any other with an object of [cpy_size]
    bytes, the product of record size and count taken in [uint32_t]. *)
Definition loaded_frames (size : Z) (fr : VMDFrames) : Prop :=
  0 <= num_frames fr < 2 ^ 32 /\
  match frames fr with
  | None => num_frames fr = 0
  | Some blk => num_frames fr <> 0 /\
                Z.of_nat (List.length blk) = u32 (size * num_frames fr)
  end.

(** The count equals the number of [size]-byte records held. *)
Definition wf_frames (size : Z) (fr : VMDFrames) : Prop :=
  0 <= num_frames fr < 2 ^ 32 /\
  match frames fr with
  | None => num_frames fr = 0
  | Some blk => num_frames fr <> 0 /\
                Z.of_nat (List.length blk) = size * num_frames fr
  end.

Definition wf_header (h : VMDHeader) : Prop :=
  header h = VMDLIB_MAGIC /\ List.length (model_name h) = 20%nat.

Definition on_categories (P : Z -> VMDFrames -> Prop) (d : VMDFile) : Prop :=
  P (sizeof VMDBoneSingleFrame_layout) (bone_frames d) /\
  P (sizeof VMDMorphSingleFrame_layout) (morph_frames d) /\
  P (sizeof VMDCameraSingleFrame_layout) (camera_frames d) /\
  P (sizeof VMDLightSingleFrame_layout) (light_frames d) /\
  P (sizeof VMDShadowSingleFrame_layout) (shadow_frames d) /\
  P (sizeof VMDIKSingleFrame_layout) (ik_frames d).

Definition loaded_file (d : VMDFile) : Prop :=
  wf_header (file_header d) /\ on_categories loaded_frames d.

Definition wf_file (d : VMDFile) : Prop :=
  wf_header (file_header d) /\ on_categories wf_frames d.

(** The record layout of a category. *)
Definition category_layout (type : Z) : layout :=
  if type =? VMDL_BONE then VMDBoneSingleFrame_layout
  else if type =? VMDL_MORPH then VMDMorphSingleFrame_layout
  else if type =? VMDL_CAMERA then VMDCameraSingleFrame_layout
  else if type =? VMDL_LIGHT then VMDLightSingleFrame_layout
  else if type =? VMDL_SHADOW then VMDShadowSingleFrame_layout
  else VMDIKSingleFrame_layout.

(** A whole record of the category. *)
Definition is_record (type : Z) (r : block) : Prop :=
  Z.of_nat (List.length r) = sizeof (category_layout type).

(** The frame index of a record (0 when the bytes do not hold one). *)
Definition frame_key (type : Z) (r : block) : Z :=
  or_zero (frame_of (category_layout type) r).

(** The comparison [VMDqsort] selects for a category, on whole records. *)
Definition frame_cmp (type : Z) (a b : block) : Z :=
  or_zero (compare_frame_number (category_layout type) a b).

(** The image of the Shadow category in a file that may end before it. *)
Definition optional_image (shadow : option VMDFrames) : list byte :=
  match shadow with Some s => frames_image s | None => [] end.

Definition optional_size (shadow : option VMDFrames) : Z :=
  match shadow with
  | Some s => 4 + sizeof VMDShadowSingleFrame_layout * num_frames s
  | None => 0
  end.

(** The storage of a category holds the records its count announces. *)
Definition storage_suffices (size : Z) (fr : VMDFrames) : bool :=
  match frames fr with
  | None => true
  | Some blk =>
      (0 <=? size * num_frames fr)
      && (size * num_frames fr <=? Z.of_nat (List.length blk))
  end.

(** The count of a category and the first [num_frames] records of its
    storage. *)
Definition written_frames (size : Z) (fr : VMDFrames) : list byte :=
  bytes_of_u32 (num_frames fr)
  ++ match frames fr with
     | None => []
     | Some blk => firstn (Z.to_nat (size * num_frames fr)) blk
     end.

(** A category as the loader builds it from a list of whole records. *)
Definition frames_of_records (recs : list block) : VMDFrames :=
  mkFrames (Z.of_nat (List.length recs))
    (match recs with [] => None | _ => Some (List.concat recs) end).

(** The world after [VMD_ERROR = VMDLIB_E_INIT]. *)
Definition reset_error (w : world) : world :=
  mkWorld VMDLIB_E_INIT (fs_read w) (fs_writable w) (heap w).

(** A document of whole records, as the loader builds it. *)
Definition motion_doc (nm : list byte)
  (bones morphs cameras lights shadows iks : list block) : VMDFile :=
  mkFile (mkHeader VMDLIB_MAGIC nm)
    (frames_of_records bones) (frames_of_records morphs)
    (frames_of_records cameras) (frames_of_records lights)
    (frames_of_records shadows) (frames_of_records iks).

(** No category announces 2^32 bytes or more. *)
Definition fits_u32 (d : VMDFile) : bool :=
  (sizeof VMDBoneSingleFrame_layout * num_frames (bone_frames d) <? 2 ^ 32)
  && (sizeof VMDMorphSingleFrame_layout * num_frames (morph_frames d)
      <? 2 ^ 32)
  && (sizeof VMDCameraSingleFrame_layout * num_frames (camera_frames d)
      <? 2 ^ 32)
  && (sizeof VMDLightSingleFrame_layout * num_frames (light_frames d)
      <? 2 ^ 32)
  && (sizeof VMDShadowSingleFrame_layout * num_frames (shadow_frames d)
      <? 2 ^ 32)
  && (sizeof VMDIKSingleFrame_layout * num_frames (ik_frames d) <? 2 ^ 32).

(* ================================================================== *)
(** ** Files, documents and records used as examples *)

(** A process in which [fname] holds [data], every name can be opened for
    writing, every [malloc] succeeds and no error has been recorded. *)
Definition world_with (fname : string) (data : list byte) : world :=
  mkWorld VMDLIB_E_INIT
    (fun n => if String.eqb n fname then Some (mkDiskFile data true)
              else None)
    (fun _ => true) [].

(** As [world_with], with given results for the coming [malloc]s. *)
Definition world_with_heap (fname : string) (data : list byte)
  (h : list bool) : world :=
  mkWorld VMDLIB_E_INIT
    (fun n => if String.eqb n fname then Some (mkDiskFile data true)
              else None)
    (fun _ => true) h.

(** A 75-byte file: valid header, four empty categories, a Shadow count of
    954437177 (bytes 39 8E E3 38) followed by one byte, and an empty ShowIK
    category.  9 * 954437177 = 2^33 + 1, so [cpy_size] is 1. *)
Definition wrapped_shadow_file : list byte :=
  VMDLIB_MAGIC ++ repeat x00 20 ++ repeat x00 16
  ++ [x39; x8e; xe3; x38] ++ [x07] ++ repeat x00 4.

Definition wrapped_shadow_doc : VMDFile :=
  mkFile (mkHeader VMDLIB_MAGIC (repeat x00 20))
    (mkFrames 0 None) (mkFrames 0 None) (mkFrames 0 None) (mkFrames 0 None)
    (mkFrames 954437177 (Some [x07])) (mkFrames 0 None).

(** A valid header, a Bone count of 10, and nine Bone records. *)
Definition nine_of_ten_bones_file : list byte :=
  VMDLIB_MAGIC ++ repeat x00 20 ++ bytes_of_u32 10
  ++ repeat x00 (9 * 111).

Definition empty_vmd_file : list byte :=
  VMDLIB_MAGIC ++ repeat x00 20 ++ repeat x00 24.

Definition no_frames : VMDFrames := mkFrames 0 None.

Definition empty_doc (nm : list byte) : VMDFile :=
  mkFile (mkHeader VMDLIB_MAGIC nm)
    no_frames no_frames no_frames no_frames no_frames no_frames.

(** The bytes of a ShowIK record. *)
Definition ik_record (frame : Z) (show : byte) (ik_count : Z)
  (name : list byte) (on_off : byte) : block :=
  bytes_of_u32 frame ++ [show] ++ bytes_of_u32 ik_count ++ name ++ [on_off].

(** Two ShowIK records whose IK counts are 7 and 0. *)
Definition showik_doc : VMDFile :=
  mkFile (mkHeader VMDLIB_MAGIC (repeat x00 20))
    no_frames no_frames no_frames no_frames no_frames
    (mkFrames 2
       (Some (ik_record 3 x01 7 (repeat x41 20) x01
              ++ ik_record 1 x01 0 (repeat x42 20) x00))).

(** A Bone record with the given frame index (the other fields zero). *)
Definition bone_record (frame : Z) : block :=
  repeat x00 15 ++ bytes_of_u32 frame ++ repeat x00 92.

(** A Camera record with the given frame index. *)
Definition camera_record (frame : Z) : block :=
  bytes_of_u32 frame ++ repeat x00 57.

(** A Light record with the given frame index. *)
Definition light_record (frame : Z) : block :=
  bytes_of_u32 frame ++ repeat x00 24.

(** Two Bone records, out of order, and their sorted arrangement. *)
Definition two_bones_doc : VMDFile :=
  mkFile (mkHeader VMDLIB_MAGIC (repeat x00 20))
    (mkFrames 2 (Some (bone_record 9 ++ bone_record 4)))
    no_frames no_frames no_frames no_frames no_frames.

Definition two_bones_sorted_doc : VMDFile :=
  mkFile (mkHeader VMDLIB_MAGIC (repeat x00 20))
    (mkFrames 2 (Some (bone_record 4 ++ bone_record 9)))
    no_frames no_frames no_frames no_frames no_frames.

(** A motion file: four Bone records, two Camera records, one Light
    record. *)
Definition sample_motion_doc : VMDFile :=
  motion_doc (repeat x00 20)
    [bone_record 5; bone_record 1; bone_record 3; bone_record 1] []
    [camera_record 8; camera_record 2] [light_record 6] [] [].

(* ================================================================== *)
(** * Properties *)

(** ** Bytes and 32-bit integers *)

Lemma byte_val_range (b : byte) : 0 <= byte_val b < 256.
Proof.
  unfold byte_val. pose proof (Byte.to_N_bounded b). lia.
Qed.

Lemma byte_of_val (b : byte) : byte_of (byte_val b) = b.
Proof.
  unfold byte_of. pose proof (byte_val_range b) as Hr.
  rewrite Z.mod_small by lia.
  unfold byte_val. rewrite N2Z.id, Byte.of_to_N. reflexivity.
Qed.

Lemma byte_val_of (z : Z) : byte_val (byte_of z) = z mod 256.
Proof.
  unfold byte_of, byte_val.
  pose proof (Z.mod_pos_bound z 256 ltac:(lia)) as Hr.
  destruct (Byte.of_N (Z.to_N (z mod 256))) as [b|] eqn:E.
  - apply Byte.to_of_N in E. rewrite E. lia.
  - apply Byte.of_N_None_iff in E. lia.
Qed.

Lemma u32_of_bytes_range (bs : list byte) : 0 <= u32_of_bytes bs < 2 ^ 32.
Proof.
  unfold u32_of_bytes.
  destruct bs as [|b0 [|b1 [|b2 [|b3 [|b4 bs]]]]]; try lia.
  pose proof (byte_val_range b0). pose proof (byte_val_range b1).
  pose proof (byte_val_range b2). pose proof (byte_val_range b3). lia.
Qed.

Lemma bytes_of_u32_of_bytes (bs : list byte) :
  List.length bs = 4%nat -> bytes_of_u32 (u32_of_bytes bs) = bs.
Proof.
  destruct bs as [|b0 [|b1 [|b2 [|b3 [|b4 bs]]]]]; try discriminate.
  intros _. unfold bytes_of_u32, u32_of_bytes.
  pose proof (byte_val_range b0). pose proof (byte_val_range b1).
  pose proof (byte_val_range b2). pose proof (byte_val_range b3).
  set (v := byte_val b0 + 256 * byte_val b1 + 65536 * byte_val b2
            + 16777216 * byte_val b3).
  assert (E0 : v mod 256 = byte_val b0)
    by (symmetry; apply (Z.mod_unique_pos _ _
          (byte_val b1 + 256 * byte_val b2 + 65536 * byte_val b3)); lia).
  assert (D1 : v / 256
               = byte_val b1 + 256 * byte_val b2 + 65536 * byte_val b3)
    by (symmetry; apply (Z.div_unique_pos _ _ _ (byte_val b0)); lia).
  assert (E1 : (v / 256) mod 256 = byte_val b1)
    by (rewrite D1; symmetry;
        apply (Z.mod_unique_pos _ _ (byte_val b2 + 256 * byte_val b3)); lia).
  assert (D2 : v / 65536 = byte_val b2 + 256 * byte_val b3)
    by (symmetry;
        apply (Z.div_unique_pos _ _ _ (byte_val b0 + 256 * byte_val b1));
        lia).
  assert (E2 : (v / 65536) mod 256 = byte_val b2)
    by (rewrite D2; symmetry;
        apply (Z.mod_unique_pos _ _ (byte_val b3)); lia).
  assert (D3 : v / 16777216 = byte_val b3)
    by (symmetry;
        apply (Z.div_unique_pos _ _ _
                 (byte_val b0 + 256 * byte_val b1 + 65536 * byte_val b2));
        lia).
  assert (E3 : (v / 16777216) mod 256 = byte_val b3)
    by (rewrite D3; apply Z.mod_small; lia).
  assert (B : forall z b, z mod 256 = byte_val b -> byte_of z = b).
  { intros z b Hz. rewrite <- (byte_of_val b). unfold byte_of.
    rewrite Hz. rewrite (Z.mod_small (byte_val b)) by apply byte_val_range.
    reflexivity. }
  rewrite (B _ _ E0), (B _ _ E1), (B _ _ E2), (B _ _ E3). reflexivity.
Qed.

Lemma u32_of_bytes_of_u32 (n : Z) :
  0 <= n < 2 ^ 32 -> u32_of_bytes (bytes_of_u32 n) = n.
Proof.
  intros Hn. unfold u32_of_bytes, bytes_of_u32.
  rewrite !byte_val_of.
  assert (E2 : n / 65536 = n / 256 / 256)
    by (rewrite Z.div_div by lia; reflexivity).
  assert (E3 : n / 16777216 = n / 256 / 256 / 256)
    by (rewrite !Z.div_div by lia; reflexivity).
  rewrite E2, E3.
  pose proof (Z.div_mod n 256 ltac:(lia)).
  pose proof (Z.div_mod (n / 256) 256 ltac:(lia)).
  pose proof (Z.div_mod (n / 256 / 256) 256 ltac:(lia)).
  assert (0 <= n / 256 / 256 / 256 < 256).
  { split.
    - repeat apply Z.div_pos; lia.
    - repeat (apply Z.div_lt_upper_bound; [lia|]). lia. }
  rewrite (Z.mod_small (n / 256 / 256 / 256)) by lia.
  lia.
Qed.

Lemma bytes_of_u32_length (n : Z) : List.length (bytes_of_u32 n) = 4%nat.
Proof. reflexivity. Qed.

Lemma u32_small (z : Z) : 0 <= z < 2 ^ 32 -> u32 z = z.
Proof. intros H. unfold u32. apply Z.mod_small. exact H. Qed.

Lemma memcmp_eq_iff (a b : list byte) : memcmp_eq a b = true <-> a = b.
Proof.
  revert b. induction a as [|x a IH]; intros [|y b]; simpl;
    try (split; [discriminate | discriminate]); try tauto.
  rewrite andb_true_iff, IH. split.
  - intros [Hxy ->]. apply Byte.byte_dec_bl in Hxy. subst. reflexivity.
  - intros E. injection E as -> ->. split; [apply Byte.byte_dec_lb|]; reflexivity.
Qed.

(** ** Reading memory *)

Lemma mem_read_app (pre bs post : list byte) :
  mem_read (pre ++ bs ++ post) (Z.of_nat (List.length pre))
    (Z.of_nat (List.length bs)) = Some bs.
Proof.
  unfold mem_read. rewrite !length_app.
  replace ((0 <=? Z.of_nat (List.length pre))
           && (0 <=? Z.of_nat (List.length bs))
           && (Z.of_nat (List.length pre) + Z.of_nat (List.length bs)
               <=? Z.of_nat (List.length pre
                             + (List.length bs + List.length post))))
    with true by (symmetry; rewrite !andb_true_iff, !Z.leb_le; lia).
  rewrite !Nat2Z.id.
  rewrite skipn_app, skipn_all, Nat.sub_diag. simpl.
  rewrite firstn_app, firstn_all, Nat.sub_diag. simpl.
  rewrite app_nil_r. reflexivity.
Qed.

Lemma mem_read_length (m : block) (off len : Z) (bs : list byte) :
  mem_read m off len = Some bs -> Z.of_nat (List.length bs) = len.
Proof.
  unfold mem_read.
  destruct ((0 <=? off) && (0 <=? len)
            && (off + len <=? Z.of_nat (List.length m))) eqn:E;
    [|discriminate].
  rewrite !andb_true_iff, !Z.leb_le in E.
  intros H. injection H as <-.
  rewrite length_firstn, length_skipn. lia.
Qed.

Lemma mem_read_None (m : block) (off len : Z) :
  Z.of_nat (List.length m) < off + len -> mem_read m off len = None.
Proof.
  intros H. unfold mem_read.
  replace (off + len <=? Z.of_nat (List.length m)) with false
    by (symmetry; apply Z.leb_gt; lia).
  rewrite andb_false_r. reflexivity.
Qed.

Lemma mem_read_firstn (m : block) (k : nat) :
  (k <= List.length m)%nat -> mem_read m 0 (Z.of_nat k) = Some (firstn k m).
Proof.
  intros H. unfold mem_read.
  replace (0 + Z.of_nat k <=? Z.of_nat (List.length m)) with true
    by (symmetry; apply Z.leb_le; lia).
  replace (0 <=? Z.of_nat k) with true by (symmetry; apply Z.leb_le; lia).
  rewrite Nat2Z.id. reflexivity.
Qed.

Lemma mem_read_all (m : block) :
  mem_read m 0 (Z.of_nat (List.length m)) = Some m.
Proof.
  pose proof (mem_read_app [] m []) as H. simpl in H.
  rewrite app_nil_r in H. exact H.
Qed.

(** ** The world across calls *)

Lemma steady_refl (w : world) : steady w w.
Proof. unfold steady. tauto. Qed.

Lemma steady_trans (w1 w2 w3 : world) :
  steady w1 w2 -> steady w2 w3 -> steady w1 w3.
Proof.
  unfold steady. intros (E1 & F1 & G1 & H1) (E2 & F2 & G2 & H2).
  repeat split; try congruence. auto.
Qed.

Lemma malloc_steady (size : Z) (w : world) :
  exists w', malloc size w = Done (hd true (heap w)) w' /\ steady w w'.
Proof.
  eexists. split; [reflexivity|]. unfold steady, heap_ok. simpl.
  repeat split. intros H. destruct (heap w); simpl; [constructor|].
  inversion H; assumption.
Qed.

Lemma heap_ok_hd (w : world) : heap_ok w -> hd true (heap w) = true.
Proof.
  unfold heap_ok. destruct (heap w); simpl; [reflexivity|].
  intros H. inversion H; assumption.
Qed.

Create HintDb vmd.
#[local] Hint Resolve steady_refl steady_trans : vmd.

(** ** What a loaded document looks like *)

Lemma loaded_wf_frames (size : Z) (fr : VMDFrames) :
  0 <= size -> size * num_frames fr < 2 ^ 32 ->
  loaded_frames size fr -> wf_frames size fr.
Proof.
  unfold loaded_frames, wf_frames. intros Hs Hn [Hr H]. split; [exact Hr|].
  destruct (frames fr); [|exact H].
  rewrite u32_small in H by nia. exact H.
Qed.

Lemma loaded_wf_file (d : VMDFile) :
  announced_size d < 2 ^ 32 -> loaded_file d -> wf_file d.
Proof.
  unfold loaded_file, wf_file, on_categories, announced_size.
  intros Hsz (Hh & B & Mo & C & L & S & I). split; [exact Hh|].
  pose proof (proj1 B). pose proof (proj1 Mo). pose proof (proj1 C).
  pose proof (proj1 L). pose proof (proj1 S). pose proof (proj1 I).
  simpl sizeof in *.
  refine (conj _ (conj _ (conj _ (conj _ (conj _ _)))));
    apply loaded_wf_frames; try assumption; lia.
Qed.

(** ** Inversion of a completed load *)

Ltac mstep :=
  cbv beta iota delta [bind ret undefined load_bytes negb].

Lemma load_frames_inv content off size w fr off' w' :
  load_frames content off size w = Done (fr, off') w' ->
  loaded_frames size fr /\ steady w w'.
Proof.
  unfold load_frames. mstep.
  destruct (mem_read content off 4) as [cnt|]; [|discriminate].
  pose proof (u32_of_bytes_range cnt) as Hr.
  destruct (u32_of_bytes cnt =? 0) eqn:E0; mstep.
  - apply Z.eqb_eq in E0. intros H. injection H as <- _ <-.
    split; [|apply steady_refl]. unfold loaded_frames. simpl. lia.
  - apply Z.eqb_neq in E0.
    destruct (malloc_steady (u32 (size * u32_of_bytes cnt)) w)
      as (w1 & -> & Hst).
    destruct (hd true (heap w)); mstep; [|discriminate].
    destruct (mem_read content (u32 (off + 4))
                (u32 (size * u32_of_bytes cnt))) as [recs|] eqn:Er;
      [|discriminate].
    intros H. injection H as <- _ <-.
    split; [|exact Hst]. unfold loaded_frames. simpl.
    apply mem_read_length in Er. auto.
Qed.

Lemma mem_read_prefix (m : block) (len k : Z) (bs : list byte) :
  mem_read m 0 len = Some bs -> 0 <= k <= len ->
  mem_read m 0 k = Some (firstn (Z.to_nat k) bs).
Proof.
  unfold mem_read. intros H Hk. simpl in *.
  destruct (0 <=? len) eqn:E1; [|discriminate].
  destruct (len <=? Z.of_nat (List.length m)) eqn:E2; [|discriminate].
  apply Z.leb_le in E2. simpl in H. injection H as <-.
  replace (0 <=? k) with true by (symmetry; apply Z.leb_le; lia).
  replace (k <=? Z.of_nat (List.length m)) with true
    by (symmetry; apply Z.leb_le; lia).
  simpl. rewrite firstn_firstn. f_equal. f_equal. lia.
Qed.

Ltac mstep_io :=
  cbv beta iota delta
    [bind ret undefined load_bytes negb set_VMD_ERROR fopen_rb fopen_wb].

Lemma VMDLoadFromFile_inv fname w d w' :
  VMDLoadFromFile fname w = Done (Some d) w' ->
  loaded_file d /\ steady w w'.
Proof.
  unfold VMDLoadFromFile. mstep_io.
  destruct (fs_read w fname) as [f|]; [|discriminate].
  destruct (malloc_steady (Z.of_nat (List.length (f_bytes f)) + 1) w)
    as (w1 & -> & St1).
  destruct (hd true (heap w)); mstep_io; [|discriminate].
  destruct (fread_fails f); [discriminate|].
  unfold __VMDCheckHeader. mstep_io.
  destruct (mem_read (f_bytes f) (offsetof VMDHeader_layout "header") 30)
    as [magic|] eqn:Em; [|discriminate].
  destruct (memcmp_eq VMDLIB_MAGIC magic) eqn:Ec; mstep_io; [|discriminate].
  apply memcmp_eq_iff in Ec. subst magic.
  destruct (malloc_steady sizeof_VMDFile w1) as (w2 & -> & St2).
  destruct (hd true (heap w1)); mstep_io; [|discriminate].
  destruct (mem_read (f_bytes f) 0 (sizeof VMDHeader_layout))
    as [hdr|] eqn:Eh; [|discriminate].
  repeat
    match goal with
    | |- context [load_frames ?c ?o ?s ?w] =>
        let fr := fresh "fr" in
        let off := fresh "off" in
        let wn := fresh "wn" in
        let E := fresh "E" in
        let L := fresh "L" in
        let St := fresh "St" in
        destruct (load_frames c o s w) as [[fr off] wn|] eqn:E;
        [apply load_frames_inv in E; destruct E as [L St] | discriminate]
    end.
  intros Hret. injection Hret as <- <-.
  split.
  - split; [|unfold on_categories; simpl; tauto].
    change (firstn 30 hdr = VMDLIB_MAGIC
            /\ List.length (skipn 30 hdr) = 20%nat).
    pose proof (mem_read_length _ _ _ _ Eh) as Hl. simpl in Hl.
    change (offsetof VMDHeader_layout "header") with 0 in Em.
    rewrite (mem_read_prefix _ _ 30 _ Eh) in Em by (simpl; lia).
    injection Em as Em. split; [exact Em|].
    rewrite length_skipn. lia.
  - eauto 10 with vmd.
Qed.

(** ** Writing a well-formed document, and loading its image *)

Lemma frames_image_length (size : Z) (fr : VMDFrames) :
  wf_frames size fr ->
  Z.of_nat (List.length (frames_image fr)) = 4 + size * num_frames fr.
Proof.
  unfold wf_frames, frames_image. intros [_ H].
  rewrite length_app, bytes_of_u32_length.
  destruct (frames fr); simpl List.length.
  - destruct H as [_ H]. lia.
  - rewrite H. lia.
Qed.

Lemma fwrite_frames_wf (size : Z) (fr : VMDFrames) (w : world) :
  wf_frames size fr -> fwrite_frames fr size w = Done (frames_image fr) w.
Proof.
  unfold wf_frames, fwrite_frames, frames_image. intros [_ H].
  destruct (frames fr) as [blk|]; mstep.
  - destruct H as [_ H]. rewrite <- H, mem_read_all. reflexivity.
  - rewrite app_nil_r. reflexivity.
Qed.

Lemma VMDWriteToFile_wf (d : VMDFile) (fname : string) (w : world) :
  on_categories wf_frames d -> fs_writable w fname = true ->
  VMDWriteToFile (Some d) fname w
  = Done true (written fname (file_image d) w).
Proof.
  intros (B & Mo & C & L & S & I) Hw.
  unfold VMDWriteToFile. mstep_io. rewrite Hw. mstep_io.
  rewrite (fwrite_frames_wf _ _ _ B).
  rewrite (fwrite_frames_wf _ _ _ Mo).
  rewrite (fwrite_frames_wf _ _ _ C).
  rewrite (fwrite_frames_wf _ _ _ L).
  rewrite (fwrite_frames_wf _ _ _ S).
  rewrite (fwrite_frames_wf _ _ _ I).
  unfold fclose_wb, file_image. rewrite <- !app_assoc. reflexivity.
Qed.

Lemma load_frames_image content pre post fr size off w :
  wf_frames size fr ->
  content = pre ++ frames_image fr ++ post ->
  off = Z.of_nat (List.length pre) ->
  0 <= size -> off + 4 + size * num_frames fr < 2 ^ 32 ->
  heap_ok w ->
  exists w',
    load_frames content off size w
    = Done (fr, off + 4 + size * num_frames fr) w' /\ steady w w'.
Proof.
  destruct fr as [n fs]. unfold wf_frames, frames_image.
  cbn [num_frames frames]. intros [Hr Hf] -> -> Hs Hlt Hh.
  unfold load_frames. mstep. rewrite <- app_assoc.
  rewrite (mem_read_app pre (bytes_of_u32 n)).
  rewrite u32_of_bytes_of_u32 by exact Hr.
  rewrite (u32_small (Z.of_nat (List.length pre) + 4)) by nia.
  destruct fs as [blk|].
  - destruct Hf as [Hn Hl].
    replace (n =? 0) with false by (symmetry; apply Z.eqb_neq; exact Hn).
    mstep.
    destruct (malloc_steady (u32 (size * n)) w) as (w1 & -> & St).
    rewrite (heap_ok_hd _ Hh).
    rewrite (u32_small (size * n)) by nia.
    rewrite u32_small by nia.
    rewrite (app_assoc pre (bytes_of_u32 n)).
    replace (Z.of_nat (List.length pre) + 4)
      with (Z.of_nat (List.length (pre ++ bytes_of_u32 n)))
      by (rewrite length_app, bytes_of_u32_length; lia).
    rewrite <- Hl, mem_read_app.
    exists w1. split; [|exact St].
    rewrite length_app, bytes_of_u32_length. reflexivity.
  - subst n. simpl. exists w. split; [|apply steady_refl].
    do 2 f_equal. lia.
Qed.

Lemma mem_read_at content pre bs post off len :
  content = pre ++ bs ++ post ->
  off = Z.of_nat (List.length pre) -> len = Z.of_nat (List.length bs) ->
  mem_read content off len = Some bs.
Proof. intros -> -> ->. apply mem_read_app. Qed.

Ltac sizes :=
  change (sizeof VMDHeader_layout) with 50 in *;
  change (sizeof VMDBoneSingleFrame_layout) with 111 in *;
  change (sizeof VMDMorphSingleFrame_layout) with 23 in *;
  change (sizeof VMDCameraSingleFrame_layout) with 61 in *;
  change (sizeof VMDLightSingleFrame_layout) with 28 in *;
  change (sizeof VMDShadowSingleFrame_layout) with 9 in *;
  change (sizeof VMDIKSingleFrame_layout) with 30 in *.

Ltac malloc_ok Hh :=
  match goal with
  | |- context [malloc ?sz ?w] =>
      let w' := fresh "w" in
      let St := fresh "St" in
      destruct (malloc_steady sz w) as (w' & -> & St);
      rewrite (heap_ok_hd _ Hh); mstep_io;
      apply (proj2 (proj2 (proj2 St))) in Hh
  end.

Ltac load_image_step pre post Hwf Hh Ec :=
  match goal with
  | |- context [load_frames ?c ?off ?sz ?w] =>
      let w' := fresh "w" in
      let St := fresh "St" in
      destruct (load_frames_image c pre post _ sz off w Hwf)
        as (w' & -> & St);
      [ rewrite Ec, <- !app_assoc; reflexivity
      | rewrite !length_app; lia | lia | lia | exact Hh | ];
      apply (proj2 (proj2 (proj2 St))) in Hh; mstep_io
  end.

Lemma VMDLoadFromFile_image d fname rest w :
  wf_file d -> announced_size d < 2 ^ 32 ->
  fs_read w fname = Some (mkDiskFile (file_image d ++ rest) true) ->
  heap_ok w ->
  exists w', VMDLoadFromFile fname w = Done (Some d) w' /\ steady w w'.
Proof.
  destruct d as [[h nm] b m c l s i].
  unfold wf_file, wf_header, on_categories, announced_size, file_image.
  cbn [file_header header model_name bone_frames morph_frames camera_frames
       light_frames shadow_frames ik_frames].
  intros [[-> Hnm] (B & Mo & C & L & S & I)] Hsz Hf Hh.
  pose proof (frames_image_length _ _ B) as Lb.
  pose proof (frames_image_length _ _ Mo) as Lm.
  pose proof (frames_image_length _ _ C) as Lc.
  pose proof (frames_image_length _ _ L) as Ll.
  pose proof (frames_image_length _ _ S) as Ls.
  pose proof (frames_image_length _ _ I) as Li.
  pose proof (proj1 B). pose proof (proj1 Mo). pose proof (proj1 C).
  pose proof (proj1 L). pose proof (proj1 S). pose proof (proj1 I).
  assert (Lh : Z.of_nat (List.length VMDLIB_MAGIC) = 30) by reflexivity.
  sizes.
  remember ((VMDLIB_MAGIC ++ nm ++ frames_image b ++ frames_image m
             ++ frames_image c ++ frames_image l ++ frames_image s
             ++ frames_image i) ++ rest) as content eqn:Ec.
  unfold VMDLoadFromFile. mstep_io. sizes. rewrite Hf.
  cbn [f_bytes f_read_ok].
  malloc_ok Hh.
  assert (Hpos : 30 <= Z.of_nat (List.length content)).
  { rewrite Ec, !length_app. lia. }
  unfold fread_fails. cbn [f_bytes f_read_ok].
  replace (Z.of_nat (List.length content) =? 0) with false
    by (symmetry; apply Z.eqb_neq; lia).
  cbn [negb orb].
  unfold __VMDCheckHeader. mstep_io.
  rewrite (mem_read_at content [] VMDLIB_MAGIC
             (nm ++ frames_image b ++ frames_image m ++ frames_image c
              ++ frames_image l ++ frames_image s ++ frames_image i ++ rest))
    by (try reflexivity; rewrite Ec, <- !app_assoc; reflexivity).
  replace (memcmp_eq VMDLIB_MAGIC VMDLIB_MAGIC) with true by reflexivity.
  mstep_io.
  malloc_ok Hh.
  rewrite (mem_read_at content [] (VMDLIB_MAGIC ++ nm)
             (frames_image b ++ frames_image m ++ frames_image c
              ++ frames_image l ++ frames_image s ++ frames_image i ++ rest))
    by first [ reflexivity | rewrite length_app; lia
             | rewrite Ec, <- !app_assoc; reflexivity ].
  change (u32 (0 + 50)) with 50.
  load_image_step (VMDLIB_MAGIC ++ nm)
    (frames_image m ++ frames_image c ++ frames_image l
     ++ frames_image s ++ frames_image i ++ rest) B Hh Ec.
  load_image_step (VMDLIB_MAGIC ++ nm ++ frames_image b)
    (frames_image c ++ frames_image l
     ++ frames_image s ++ frames_image i ++ rest) Mo Hh Ec.
  load_image_step (VMDLIB_MAGIC ++ nm ++ frames_image b ++ frames_image m)
    (frames_image l ++ frames_image s ++ frames_image i ++ rest) C Hh Ec.
  load_image_step
    (VMDLIB_MAGIC ++ nm ++ frames_image b ++ frames_image m
     ++ frames_image c)
    (frames_image s ++ frames_image i ++ rest) L Hh Ec.
  load_image_step
    (VMDLIB_MAGIC ++ nm ++ frames_image b ++ frames_image m
     ++ frames_image c ++ frames_image l)
    (frames_image i ++ rest) S Hh Ec.
  load_image_step
    (VMDLIB_MAGIC ++ nm ++ frames_image b ++ frames_image m
     ++ frames_image c ++ frames_image l ++ frames_image s)
    rest I Hh Ec.
  eexists. split.
  - replace (firstn 30 (VMDLIB_MAGIC ++ nm)) with VMDLIB_MAGIC by reflexivity.
    replace (skipn 30 (VMDLIB_MAGIC ++ nm)) with nm by reflexivity.
    reflexivity.
  - eauto 12 with vmd.
Qed.

(* ================================================================== *)
(** ** Round trip *)

(** Loading, writing and loading again gives the same document, as long as
    the sizes the counts announce stay below 2^32 in total. *)
Lemma roundtrip_below_4GiB fname out w d w1 :
  VMDLoadFromFile fname w = Done (Some d) w1 ->
  announced_size d < 2 ^ 32 ->
  fs_writable w1 out = true -> heap_ok w1 ->
  exists w2 w3,
    VMDWriteToFile (Some d) out w1 = Done true w2 /\
    fs_read w2 out = Some (mkDiskFile (file_image d) true) /\
    VMDLoadFromFile out w2 = Done (Some d) w3 /\
    VMD_ERROR w3 = VMD_ERROR w.
Proof.
  intros Hl Hsz Hw Hh.
  apply VMDLoadFromFile_inv in Hl. destruct Hl as [Hld St1].
  pose proof (loaded_wf_file d Hsz Hld) as Hwf.
  exists (written out (file_image d) w1).
  assert (Hf : fs_read (written out (file_image d) w1) out
               = Some (mkDiskFile (file_image d) true)).
  { unfold written. cbn [fs_read]. rewrite String.eqb_refl. reflexivity. }
  destruct (VMDLoadFromFile_image d out [] (written out (file_image d) w1))
    as (w3 & El & St3); try assumption.
  { rewrite app_nil_r. exact Hf. }
  exists w3. split; [|split; [exact Hf|split; [exact El|]]].
  - apply VMDWriteToFile_wf; [exact (proj2 Hwf) | exact Hw].
  - destruct St3 as (E3 & _). destruct St1 as (E1 & _).
    rewrite E3. unfold written. cbn [VMD_ERROR]. exact E1.
Qed.

Example roundtrip_below_4GiB_example :
  exists w2 w3,
    VMDWriteToFile (Some showik_doc) "out.vmd"
      (world_with "in.vmd" (file_image showik_doc ++ [x09]))
    = Done true w2 /\
    fs_read w2 "out.vmd" = Some (mkDiskFile (file_image showik_doc) true) /\
    VMDLoadFromFile "out.vmd" w2 = Done (Some showik_doc) w3 /\
    VMD_ERROR w3
    = VMD_ERROR (world_with "in.vmd" (file_image showik_doc ++ [x09])).
Proof.
  apply (roundtrip_below_4GiB "in.vmd" "out.vmd"
           (world_with "in.vmd" (file_image showik_doc ++ [x09]))).
  - vm_compute. reflexivity.
  - vm_compute. reflexivity.
  - reflexivity.
  - constructor.
Qed.

(** C1 (as the code has it): the loader accepts [wrapped_shadow_file]
    without recording an error and returns a document whose Shadow count is
    954437177 while its record storage holds one byte; writing that
    document reads past the storage, so there is no encoding to decode
    again and the round trip does not hold for this loaded document. *)
Theorem roundtrip_fails_on_wrapped_count :
  exists w1,
    VMDLoadFromFile "in.vmd" (world_with "in.vmd" wrapped_shadow_file)
    = Done (Some wrapped_shadow_doc) w1 /\
    VMD_ERROR w1 = VMDLIB_E_INIT /\
    VMDWriteToFile (Some wrapped_shadow_doc) "out.vmd" w1
    = Undefined OutOfBoundsRead.
Proof.
  exists (world_with "in.vmd" wrapped_shadow_file).
  split; [|split]; vm_compute; reflexivity.
Qed.

(* ================================================================== *)
(** ** Truncated input *)

(** The loader compares no offset with the size of the file: when the Bone
    count announces more bytes than follow it, the copy of the records
    reads past the bytes of the file. *)
Lemma truncated_bone_undefined fname w nm n recs :
  List.length nm = 20%nat -> 0 < n < 2 ^ 32 ->
  Z.of_nat (List.length recs)
  < u32 (sizeof VMDBoneSingleFrame_layout * n) ->
  fs_read w fname
  = Some (mkDiskFile (VMDLIB_MAGIC ++ nm ++ bytes_of_u32 n ++ recs) true) ->
  heap_ok w ->
  VMDLoadFromFile fname w = Undefined OutOfBoundsRead.
Proof.
  intros Hnm Hn Hlen Hf Hh.
  remember (VMDLIB_MAGIC ++ nm ++ bytes_of_u32 n ++ recs) as content eqn:Ec.
  assert (Lh : Z.of_nat (List.length VMDLIB_MAGIC) = 30) by reflexivity.
  assert (Lc : Z.of_nat (List.length content)
               = 54 + Z.of_nat (List.length recs)).
  { rewrite Ec, !length_app, bytes_of_u32_length. lia. }
  unfold VMDLoadFromFile. mstep_io. sizes. rewrite Hf.
  cbn [f_bytes f_read_ok].
  malloc_ok Hh.
  unfold fread_fails. cbn [f_bytes f_read_ok].
  replace (Z.of_nat (List.length content) =? 0) with false
    by (symmetry; apply Z.eqb_neq; lia).
  cbn [negb orb].
  unfold __VMDCheckHeader. mstep_io.
  rewrite (mem_read_at content [] VMDLIB_MAGIC
             (nm ++ bytes_of_u32 n ++ recs))
    by first [ reflexivity | exact Ec ].
  replace (memcmp_eq VMDLIB_MAGIC VMDLIB_MAGIC) with true by reflexivity.
  mstep_io.
  malloc_ok Hh.
  rewrite (mem_read_at content [] (VMDLIB_MAGIC ++ nm)
             (bytes_of_u32 n ++ recs))
    by first [ reflexivity | rewrite length_app; lia
             | rewrite Ec, <- !app_assoc; reflexivity ].
  change (u32 (0 + 50)) with 50.
  unfold load_frames. mstep_io.
  rewrite (mem_read_at content (VMDLIB_MAGIC ++ nm) (bytes_of_u32 n) recs)
    by first [ reflexivity | rewrite length_app; lia
             | rewrite Ec, <- !app_assoc; reflexivity ].
  rewrite u32_of_bytes_of_u32 by lia.
  replace (n =? 0) with false by (symmetry; apply Z.eqb_neq; lia).
  mstep_io.
  malloc_ok Hh.
  change (u32 (50 + 4)) with 54.
  rewrite mem_read_None by lia.
  reflexivity.
Qed.

(** C2 (as the code has it): on a file that announces ten Bone records and
    holds nine, the loader does not fail with an error: copying the
    announced records reads past the end of the file's bytes. *)
Theorem truncated_bone_count_reads_past_end :
  VMDLoadFromFile "in.vmd" (world_with "in.vmd" nine_of_ten_bones_file)
  = Undefined OutOfBoundsRead.
Proof. vm_compute. reflexivity. Qed.

(* ================================================================== *)
(** ** Failures of the loader *)

Lemma load_no_file fname w :
  fs_read w fname = None ->
  exists w', VMDLoadFromFile fname w = Done None w'
             /\ VMD_ERROR w' = VMDLIB_E_FH.
Proof.
  intros Hf. unfold VMDLoadFromFile. mstep_io. rewrite Hf.
  eexists. split; reflexivity.
Qed.

Lemma load_no_memory_for_content fname w f :
  fs_read w fname = Some f -> hd true (heap w) = false ->
  exists w', VMDLoadFromFile fname w = Done None w'
             /\ VMD_ERROR w' = VMDLIB_E_ME.
Proof.
  intros Hf Hm. unfold VMDLoadFromFile. mstep_io. rewrite Hf.
  unfold malloc. rewrite Hm. mstep_io.
  eexists. split; reflexivity.
Qed.

(** A failed [fread] returns [NULL] and leaves [VMD_ERROR] as it was. *)
Lemma load_read_failure fname w f :
  fs_read w fname = Some f -> hd true (heap w) = true ->
  fread_fails f = true ->
  exists w', VMDLoadFromFile fname w = Done None w'
             /\ VMD_ERROR w' = VMD_ERROR w.
Proof.
  intros Hf Hm Hr. unfold VMDLoadFromFile. mstep_io. rewrite Hf.
  unfold malloc. rewrite Hm. mstep_io. rewrite Hr.
  eexists. split; reflexivity.
Qed.

(** C6 (as the code has it): three failing loads that record no error
    kind.  On an empty file [fread] reads no item, the loader returns
    nothing and [VMD_ERROR] still says "no error"; when the allocation of
    the document, or of a category's record storage, fails, the loader
    copies into [NULL] instead of returning with the out-of-memory kind. *)
Theorem load_failures_without_error_kind :
  VMDLoadFromFile "in.vmd" (world_with "in.vmd" [])
  = Done None (world_with "in.vmd" []) /\
  VMD_ERROR (world_with "in.vmd" []) = VMDLIB_E_INIT /\
  VMDLoadFromFile "in.vmd"
    (world_with_heap "in.vmd" empty_vmd_file [true; false])
  = Undefined NullPointerAccess /\
  VMDLoadFromFile "in.vmd"
    (world_with_heap "in.vmd"
       (VMDLIB_MAGIC ++ repeat x00 20 ++ bytes_of_u32 1
        ++ repeat x00 111 ++ repeat x00 20)
       [true; true; false])
  = Undefined NullPointerAccess.
Proof. repeat split; vm_compute; reflexivity. Qed.

(* ================================================================== *)
(** ** Header rejection *)

(** C7: when the first 30 bytes of the file differ from the magic constant
    (in any byte, the NUL padding included), the loader returns nothing and
    records the wrong-format kind. *)
Theorem header_mismatch_is_wrong_format fname w f :
  fs_read w fname = Some f ->
  f_read_ok f = true -> hd true (heap w) = true ->
  (30 <= List.length (f_bytes f))%nat ->
  firstn 30 (f_bytes f) <> VMDLIB_MAGIC ->
  exists w', VMDLoadFromFile fname w = Done None w'
             /\ VMD_ERROR w' = VMDLIB_E_FT.
Proof.
  intros Hf Hr Hm Hlen Hne.
  unfold VMDLoadFromFile. mstep_io. rewrite Hf.
  unfold malloc. rewrite Hm. mstep_io.
  unfold fread_fails. rewrite Hr.
  replace (Z.of_nat (List.length (f_bytes f)) =? 0) with false
    by (symmetry; apply Z.eqb_neq; lia).
  cbn [negb orb].
  unfold __VMDCheckHeader. mstep_io.
  change (offsetof VMDHeader_layout "header") with 0.
  change 30 with (Z.of_nat 30).
  rewrite (mem_read_firstn (f_bytes f) 30 Hlen).
  destruct (memcmp_eq VMDLIB_MAGIC (firstn 30 (f_bytes f))) eqn:Ec.
  - apply memcmp_eq_iff in Ec. congruence.
  - mstep_io. eexists. split; reflexivity.
Qed.

(** A 30-byte file equal to the magic constant except in its last padding
    byte. *)
Lemma header_mismatch_is_wrong_format_witness :
  exists w',
    VMDLoadFromFile "in.vmd"
      (world_with "in.vmd"
         (list_byte_of_string "Vocaloid Motion Data 0002"
          ++ [x00; x00; x00; x00; x01]))
    = Done None w' /\ VMD_ERROR w' = VMDLIB_E_FT.
Proof.
  apply (header_mismatch_is_wrong_format "in.vmd"
           (world_with "in.vmd"
              (list_byte_of_string "Vocaloid Motion Data 0002"
               ++ [x00; x00; x00; x00; x01]))
           (mkDiskFile
              (list_byte_of_string "Vocaloid Motion Data 0002"
               ++ [x00; x00; x00; x00; x01]) true)).
  - reflexivity.
  - reflexivity.
  - reflexivity.
  - simpl. lia.
  - vm_compute. discriminate.
Defined.

(* ================================================================== *)
(** ** Empty categories *)

Lemma empty_doc_wf (nm : list byte) :
  List.length nm = 20%nat -> wf_file (empty_doc nm).
Proof.
  intros Hnm. unfold wf_file, wf_header, on_categories, wf_frames. simpl.
  repeat split; try assumption; lia.
Qed.

Lemma empty_doc_image (nm : list byte) :
  file_image (empty_doc nm) = VMDLIB_MAGIC ++ nm ++ repeat x00 24.
Proof. reflexivity. Qed.

(** C9: a file made of a valid header and six zero counts loads into a
    document whose six categories are empty, and writing that document
    produces the header followed by six zero counts of four bytes, and
    nothing else. *)
Theorem empty_categories_load_and_write fname out w nm :
  List.length nm = 20%nat ->
  fs_read w fname
  = Some (mkDiskFile (VMDLIB_MAGIC ++ nm ++ repeat x00 24) true) ->
  heap_ok w ->
  exists d w1,
    VMDLoadFromFile fname w = Done (Some d) w1 /\
    VMD_ERROR w1 = VMD_ERROR w /\
    file_header d = mkHeader VMDLIB_MAGIC nm /\
    bone_frames d = mkFrames 0 None /\
    morph_frames d = mkFrames 0 None /\
    camera_frames d = mkFrames 0 None /\
    light_frames d = mkFrames 0 None /\
    shadow_frames d = mkFrames 0 None /\
    ik_frames d = mkFrames 0 None /\
    forall w2,
      fs_writable w2 out = true ->
      VMDWriteToFile (Some d) out w2
      = Done true (written out (VMDLIB_MAGIC ++ nm ++ repeat x00 24) w2).
Proof.
  intros Hnm Hf Hh.
  pose proof (empty_doc_wf nm Hnm) as Hwf.
  destruct (VMDLoadFromFile_image (empty_doc nm) fname [] w)
    as (w1 & El & St); try assumption.
  - vm_compute. reflexivity.
  - rewrite app_nil_r, empty_doc_image. exact Hf.
  - exists (empty_doc nm), w1.
    split; [exact El|]. split; [exact (proj1 St)|].
    repeat (split; [reflexivity|]).
    intros w2 Hw. rewrite <- empty_doc_image.
    apply VMDWriteToFile_wf; [exact (proj2 Hwf) | exact Hw].
Qed.

Lemma empty_categories_load_and_write_witness :
  exists d w1,
    VMDLoadFromFile "in.vmd"
      (world_with "in.vmd" (VMDLIB_MAGIC ++ repeat x41 20 ++ repeat x00 24))
    = Done (Some d) w1 /\
    VMD_ERROR w1
    = VMD_ERROR
        (world_with "in.vmd"
           (VMDLIB_MAGIC ++ repeat x41 20 ++ repeat x00 24)) /\
    file_header d = mkHeader VMDLIB_MAGIC (repeat x41 20) /\
    bone_frames d = mkFrames 0 None /\
    morph_frames d = mkFrames 0 None /\
    camera_frames d = mkFrames 0 None /\
    light_frames d = mkFrames 0 None /\
    shadow_frames d = mkFrames 0 None /\
    ik_frames d = mkFrames 0 None /\
    forall w2,
      fs_writable w2 "out.vmd" = true ->
      VMDWriteToFile (Some d) "out.vmd" w2
      = Done true
          (written "out.vmd"
             (VMDLIB_MAGIC ++ repeat x41 20 ++ repeat x00 24) w2).
Proof.
  apply (empty_categories_load_and_write "in.vmd" "out.vmd"
           (world_with "in.vmd"
              (VMDLIB_MAGIC ++ repeat x41 20 ++ repeat x00 24))
           (repeat x41 20)).
  - reflexivity.
  - reflexivity.
  - constructor.
Defined.

(* ================================================================== *)
(** ** ShowIK records *)

(** C10: a ShowIK record is the fixed-size struct of a frame index, a
    visibility byte, an IK count and one embedded IK name/flag entry, 30
    bytes.  For a count [n] the loader takes the [30 * n] bytes after the
    count as the records and moves its offset past exactly these, whatever
    the bytes are (the records' IK count fields among them); the writer
    emits the count and the same [30 * n] bytes. *)
Theorem showik_records_have_fixed_size d fname out rest w :
  wf_file d -> announced_size d < 2 ^ 32 ->
  fs_read w fname = Some (mkDiskFile (file_image d ++ rest) true) ->
  heap_ok w -> fs_writable w out = true ->
  sizeof VMDIKSingleFrame_layout = 4 + 1 + 4 + sizeof VMDInfoIK_layout /\
  sizeof VMDIKSingleFrame_layout = 30 /\
  Z.of_nat (List.length (frames_image (ik_frames d)))
  = 4 + 30 * num_frames (ik_frames d) /\
  (forall pre w0,
     Z.of_nat (List.length pre) + 4 + 30 * num_frames (ik_frames d) < 2 ^ 32 ->
     heap_ok w0 ->
     exists w1,
       load_frames (pre ++ frames_image (ik_frames d) ++ rest)
         (Z.of_nat (List.length pre)) (sizeof VMDIKSingleFrame_layout) w0
       = Done (ik_frames d,
               Z.of_nat (List.length pre) + 4
               + 30 * num_frames (ik_frames d)) w1) /\
  (forall w0,
     fwrite_frames (ik_frames d) (sizeof VMDIKSingleFrame_layout) w0
     = Done (frames_image (ik_frames d)) w0) /\
  exists w1,
    VMDLoadFromFile fname w = Done (Some d) w1 /\
    VMDWriteToFile (Some d) out w1
    = Done true (written out (file_image d) w1).
Proof.
  intros Hwf Hsz Hf Hh Hw.
  pose proof (proj2 Hwf) as (_ & _ & _ & _ & _ & I). sizes.
  split; [reflexivity|]. split; [reflexivity|].
  split; [apply (frames_image_length 30); exact I|].
  split; [|split].
  - intros pre w0 Hlt Hh0.
    destruct (load_frames_image (pre ++ frames_image (ik_frames d) ++ rest)
                pre rest (ik_frames d) 30 (Z.of_nat (List.length pre)) w0)
      as (w1 & E & _); try assumption; try reflexivity; try lia.
    exists w1. exact E.
  - intros w0. apply fwrite_frames_wf. exact I.
  - destruct (VMDLoadFromFile_image d fname rest w) as (w1 & El & St);
      try assumption.
    exists w1. split; [exact El|].
    apply VMDWriteToFile_wf; [exact (proj2 Hwf)|].
    destruct St as (_ & _ & -> & _). exact Hw.
Qed.

Lemma showik_records_have_fixed_size_witness :
  sizeof VMDIKSingleFrame_layout = 4 + 1 + 4 + sizeof VMDInfoIK_layout /\
  sizeof VMDIKSingleFrame_layout = 30 /\
  Z.of_nat (List.length (frames_image (ik_frames showik_doc)))
  = 4 + 30 * num_frames (ik_frames showik_doc) /\
  (forall pre w0,
     Z.of_nat (List.length pre) + 4 + 30 * num_frames (ik_frames showik_doc)
     < 2 ^ 32 ->
     heap_ok w0 ->
     exists w1,
       load_frames (pre ++ frames_image (ik_frames showik_doc) ++ [x09; x09])
         (Z.of_nat (List.length pre)) (sizeof VMDIKSingleFrame_layout) w0
       = Done (ik_frames showik_doc,
               Z.of_nat (List.length pre) + 4
               + 30 * num_frames (ik_frames showik_doc)) w1) /\
  (forall w0,
     fwrite_frames (ik_frames showik_doc) (sizeof VMDIKSingleFrame_layout) w0
     = Done (frames_image (ik_frames showik_doc)) w0) /\
  exists w1,
    VMDLoadFromFile "in.vmd"
      (world_with "in.vmd" (file_image showik_doc ++ [x09; x09]))
    = Done (Some showik_doc) w1 /\
    VMDWriteToFile (Some showik_doc) "out.vmd" w1
    = Done true (written "out.vmd" (file_image showik_doc) w1).
Proof.
  apply (showik_records_have_fixed_size showik_doc "in.vmd" "out.vmd"
           [x09; x09]
           (world_with "in.vmd" (file_image showik_doc ++ [x09; x09]))).
  - unfold wf_file, wf_header, on_categories, wf_frames.
    vm_compute. repeat split; discriminate.
  - vm_compute. reflexivity.
  - reflexivity.
  - constructor.
  - reflexivity.
Defined.

(* ================================================================== *)
(** ** Sorting: the comparison functions *)

Lemma known_type_cases (type : Z) :
  0 <= type <= 5 ->
  type = VMDL_BONE \/ type = VMDL_MORPH \/ type = VMDL_CAMERA \/
  type = VMDL_LIGHT \/ type = VMDL_SHADOW \/ type = VMDL_IK.
Proof.
  unfold VMDL_BONE, VMDL_MORPH, VMDL_CAMERA, VMDL_LIGHT, VMDL_SHADOW, VMDL_IK.
  lia.
Qed.

Ltac by_type H :=
  destruct (known_type_cases _ H) as [->|[->|[->|[->|[->| ->]]]]].

Lemma frame_of_record (type : Z) (r : block) :
  0 <= type <= 5 -> is_record type r ->
  frame_of (category_layout type) r = Some (frame_key type r)
  /\ 0 <= frame_key type r < 2 ^ 32.
Proof.
  intros Ht Hr. unfold frame_key, frame_of, is_record in *.
  assert (Hm : exists bs,
             mem_read r (offsetof (category_layout type) "frame") 4
             = Some bs).
  { unfold mem_read.
    by_type Ht; rewrite Hr; eexists; reflexivity. }
  destruct Hm as [bs ->]. simpl. split; [reflexivity|].
  apply u32_of_bytes_range.
Qed.

Lemma record_size_pos (type : Z) :
  0 <= type <= 5 -> 0 < sizeof (category_layout type).
Proof. intros Ht. by_type Ht; reflexivity. Qed.

Lemma frame_cmp_records (type : Z) (a b : block) :
  0 <= type <= 5 -> is_record type a -> is_record type b ->
  frame_cmp type a b = to_int (u32 (frame_key type a - frame_key type b)).
Proof.
  intros Ht Ha Hb. unfold frame_cmp, compare_frame_number.
  rewrite (proj1 (frame_of_record type a Ht Ha)).
  rewrite (proj1 (frame_of_record type b Ht Hb)). reflexivity.
Qed.

Lemma to_int_u32_small (x : Z) :
  - 2 ^ 31 <= x < 2 ^ 31 -> to_int (u32 x) = x.
Proof.
  intros Hx. unfold to_int, u32. rewrite Z.mod_mod by lia.
  destruct (Z_lt_le_dec x 0) as [Hneg|Hpos].
  - assert (E : x mod 2 ^ 32 = x + 2 ^ 32)
      by (symmetry; apply (Z.mod_unique_pos _ _ (-1)); lia).
    rewrite E.
    replace (x + 2 ^ 32 <? 2 ^ 31) with false
      by (symmetry; apply Z.ltb_ge; lia).
    lia.
  - rewrite Z.mod_small by lia.
    replace (x <? 2 ^ 31) with true by (symmetry; apply Z.ltb_lt; lia).
    reflexivity.
Qed.

(** Two indices more than 2^31 apart: the difference wraps, and the
    smaller index compares as the greater. *)
Lemma to_int_u32_far (x : Z) :
  - 2 ^ 32 < x < - 2 ^ 31 -> to_int (u32 x) = x + 2 ^ 32.
Proof.
  intros Hx. unfold to_int, u32. rewrite Z.mod_mod by lia.
  assert (E : x mod 2 ^ 32 = x + 2 ^ 32)
    by (symmetry; apply (Z.mod_unique_pos _ _ (-1)); lia).
  rewrite E.
  replace (x + 2 ^ 32 <? 2 ^ 31) with true
    by (symmetry; apply Z.ltb_lt; lia).
  reflexivity.
Qed.

Lemma to_int_u32_opp (x : Z) :
  0 < to_int (u32 x) -> to_int (u32 (- x)) < 0.
Proof.
  unfold to_int, u32. rewrite !Z.mod_mod by lia.
  pose proof (Z.mod_pos_bound x (2 ^ 32) ltac:(lia)) as Hb.
  destruct (x mod 2 ^ 32 <? 2 ^ 31) eqn:E;
    [apply Z.ltb_lt in E | apply Z.ltb_ge in E; lia].
  intros Hpos.
  assert (Eo : (- x) mod 2 ^ 32 = 2 ^ 32 - x mod 2 ^ 32).
  { symmetry. apply (Z.mod_unique_pos _ _ (- (x / 2 ^ 32) - 1)); [lia|].
    pose proof (Z.div_mod x (2 ^ 32) ltac:(lia)). lia. }
  rewrite Eo.
  replace (2 ^ 32 - x mod 2 ^ 32 <? 2 ^ 31) with false
    by (symmetry; apply Z.ltb_ge; lia).
  lia.
Qed.

(** ** Sorting: [qsort] on whole records *)

Lemma chunks_concat (size : nat) (recs : list block) (rest : list byte) :
  Forall (fun r => List.length r = size) recs ->
  chunks (List.length recs) size (List.concat recs ++ rest) = recs.
Proof.
  induction 1 as [|r recs Hr _ IH]; [reflexivity|].
  simpl. rewrite <- app_assoc.
  rewrite firstn_app, skipn_app, Hr, Nat.sub_diag, firstn_all2, skipn_all2
    by lia.
  simpl. rewrite app_nil_r, IH. reflexivity.
Qed.

Lemma concat_records_length (size : nat) (recs : list block) :
  Forall (fun r => List.length r = size) recs ->
  List.length (List.concat recs) = (List.length recs * size)%nat.
Proof.
  induction 1 as [|r recs Hr _ IH]; [reflexivity|].
  simpl. rewrite length_app, IH, Hr. reflexivity.
Qed.

Lemma qsort_on_records srt (recs : list block) (size : Z)
  (cmp : comparator) w :
  0 <= size ->
  Forall (fun r => Z.of_nat (List.length r) = size) recs ->
  (2 <= List.length recs)%nat ->
  Forall (fun r => is_some (cmp r r) = true) recs ->
  qsort srt (List.concat recs) (Z.of_nat (List.length recs)) size (Some cmp) w
  = Done (List.concat (srt (fun a b => or_zero (cmp a b)) recs)) w.
Proof.
  intros Hs Hrecs Hlen Hcmp. unfold qsort.
  replace (Z.of_nat (List.length recs) <=? 1) with false
    by (symmetry; apply Z.leb_gt; lia).
  assert (Hrecs' : Forall (fun r => List.length r = Z.to_nat size) recs).
  { eapply Forall_impl; [|exact Hrecs]. simpl. intros r Hr. lia. }
  pose proof (concat_records_length _ _ Hrecs') as Hcl.
  assert (El : Z.of_nat (List.length recs) * size
               = Z.of_nat (List.length (List.concat recs))).
  { rewrite Hcl. lia. }
  mstep. rewrite El, mem_read_all.
  rewrite !Nat2Z.id.
  pose proof (chunks_concat _ _ [] Hrecs') as Hch.
  rewrite app_nil_r in Hch. rewrite Hch.
  replace (forallb (fun e => is_some (cmp e e)) recs) with true
    by (symmetry; apply forallb_forall; apply Forall_forall; exact Hcmp).
  rewrite skipn_all, app_nil_r. reflexivity.
Qed.

Lemma VMDqsort_known_type srt base num size type w :
  0 <= type <= 5 ->
  VMDqsort srt (Some base) num size type w
  = (sorted <- qsort srt base num size
                 (Some (compare_frame_number (category_layout type))) ;;
     ret (Some sorted)) w.
Proof. intros Ht. by_type Ht; reflexivity. Qed.

Lemma VMDqsort_unknown_type srt base num size type w :
  type < 0 \/ 5 < type ->
  VMDqsort srt (Some base) num size type w
  = (sorted <- qsort srt base num size None ;; ret (Some sorted)) w.
Proof.
  intros Ht. unfold VMDqsort.
  unfold VMDL_BONE, VMDL_MORPH, VMDL_CAMERA, VMDL_LIGHT, VMDL_SHADOW, VMDL_IK.
  repeat match goal with
         | |- context [type =? ?k] =>
             replace (type =? k) with false
               by (symmetry; apply Z.eqb_neq; lia)
         end.
  reflexivity.
Qed.

(** ** Insertion sort meets the contract of [qsort] *)

Lemma consistent_on_incl cmp (l l' : list block) :
  incl l' l -> consistent_on cmp l -> consistent_on cmp l'.
Proof.
  unfold consistent_on. intros Hi [Ha Ht]. split.
  - intros a b Ia Ib. apply Ha; apply Hi; assumption.
  - intros a b c Ia Ib Ic. apply Ht; apply Hi; assumption.
Qed.

Lemma insert_by_perm cmp x l : Permutation (x :: l) (insert_by cmp x l).
Proof.
  induction l as [|y l IH]; simpl; [apply Permutation_refl|].
  destruct (cmp x y <=? 0); [apply Permutation_refl|].
  eapply Permutation_trans; [apply perm_swap|].
  apply perm_skip. exact IH.
Qed.

Lemma insertion_sort_perm cmp l : Permutation l (insertion_sort cmp l).
Proof.
  induction l as [|x l IH]; simpl; [constructor|].
  eapply Permutation_trans; [|apply insert_by_perm].
  apply perm_skip. exact IH.
Qed.

Lemma insert_by_asc cmp x l :
  consistent_on cmp (x :: l) -> ascending cmp l ->
  ascending cmp (insert_by cmp x l).
Proof.
  unfold ascending. intros Hc Hs.
  induction l as [|y l IH]; simpl.
  - constructor; constructor.
  - destruct Hc as [Hanti Htrans].
    inversion Hs as [|y' l' Hs' Hy]; subst.
    destruct (cmp x y <=? 0) eqn:E.
    + apply Z.leb_le in E. constructor; [exact Hs|].
      constructor; [exact E|].
      rewrite Forall_forall in *. intros z Hz.
      apply (Htrans x y z); simpl; auto.
    + apply Z.leb_gt in E. constructor.
      * apply IH; [|exact Hs'].
        apply (consistent_on_incl cmp (x :: y :: l)).
        -- intros z [<-|Hz]; simpl; auto.
        -- split; assumption.
      * eapply Permutation_Forall; [apply insert_by_perm|].
        constructor; [|exact Hy].
        assert (cmp y x < 0) by (apply Hanti; simpl; auto).
        lia.
Qed.

Lemma insertion_sort_asc cmp l :
  consistent_on cmp l -> ascending cmp (insertion_sort cmp l).
Proof.
  induction l as [|x l IH]; intros Hc; simpl.
  - constructor.
  - apply insert_by_asc.
    + apply (consistent_on_incl cmp (x :: l)); [|exact Hc].
      intros z [<-|Hz]; [left; reflexivity|right].
      eapply Permutation_in; [|exact Hz].
      apply Permutation_sym, insertion_sort_perm.
    + apply IH. apply (consistent_on_incl cmp (x :: l)); [|exact Hc].
      intros z Hz. right. exact Hz.
Qed.

Lemma insertion_sort_contract : qsort_contract insertion_sort.
Proof.
  split.
  - intros cmp l _. apply insertion_sort_perm.
  - apply insertion_sort_asc.
Qed.

(** ** Sorting two records *)

(** When [a] compares greater than [b], a conforming [qsort] leaves the pair
    as [b, a], whichever way round it was. *)
Lemma sort_pair srt cmp (a b : block) :
  qsort_contract srt ->
  cmp a a = 0 -> cmp b b = 0 -> 0 < cmp a b -> cmp b a < 0 ->
  srt cmp [a; b] = [b; a] /\ srt cmp [b; a] = [b; a].
Proof.
  intros [Hperm Hasc] Haa Hbb Hab Hba.
  assert (Hc : consistent_on cmp [a; b]).
  { split.
    - intros x y [<-|[<-|[]]] [<-|[<-|[]]]; lia.
    - intros x y z [<-|[<-|[]]] [<-|[<-|[]]] [<-|[<-|[]]]; lia. }
  assert (Hc' : consistent_on cmp [b; a]).
  { apply (consistent_on_incl cmp [a; b]); [|exact Hc].
    intros z [<-|[<-|[]]]; simpl; auto. }
  assert (Hbad : ~ ascending cmp [a; b]).
  { intros Hs. inversion Hs as [|? ? _ Hf]; subst.
    inversion Hf; subst. lia. }
  split.
  - pose proof (Hperm cmp [a; b] Hc) as P.
    pose proof (Hasc cmp [a; b] Hc) as A.
    apply Permutation_length_2_inv in P. destruct P as [E|E]; [|exact E].
    rewrite E in A. contradiction.
  - pose proof (Hperm cmp [b; a] Hc') as P.
    pose proof (Hasc cmp [b; a] Hc') as A.
    apply Permutation_length_2_inv in P. destruct P as [E|E]; [exact E|].
    rewrite E in A. contradiction.
Qed.

Lemma VMDqsort_pair srt type (a b : block) w :
  qsort_contract srt -> 0 <= type <= 5 ->
  is_record type a -> is_record type b ->
  0 < to_int (u32 (frame_key type a - frame_key type b)) ->
  VMDqsort srt (Some (a ++ b)) 2 (sizeof (category_layout type)) type w
  = Done (Some (b ++ a)) w /\
  VMDqsort srt (Some (b ++ a)) 2 (sizeof (category_layout type)) type w
  = Done (Some (b ++ a)) w.
Proof.
  intros Hq Ht Ha Hb Hgt.
  pose proof (record_size_pos type Ht) as Hsz.
  pose proof (frame_cmp_records type a b Ht Ha Hb) as Cab.
  pose proof (frame_cmp_records type b a Ht Hb Ha) as Cba.
  pose proof (frame_cmp_records type a a Ht Ha Ha) as Caa.
  pose proof (frame_cmp_records type b b Ht Hb Hb) as Cbb.
  rewrite Z.sub_diag in Caa, Cbb.
  change (to_int (u32 0)) with 0 in Caa, Cbb.
  pose proof (to_int_u32_opp _ Hgt) as Hlt.
  replace (- (frame_key type a - frame_key type b))
    with (frame_key type b - frame_key type a) in Hlt by lia.
  rewrite <- Cab in Hgt. rewrite <- Cba in Hlt.
  destruct (sort_pair srt (frame_cmp type) a b Hq Caa Cbb Hgt Hlt)
    as [S1 S2].
  assert (Hsome : forall r, is_record type r ->
            is_some (compare_frame_number (category_layout type) r r) = true).
  { intros r Hr. unfold compare_frame_number.
    rewrite (proj1 (frame_of_record type r Ht Hr)). reflexivity. }
  rewrite !VMDqsort_known_type by exact Ht. unfold bind.
  pose proof (qsort_on_records srt [a; b] (sizeof (category_layout type))
                (compare_frame_number (category_layout type)) w) as Q1.
  pose proof (qsort_on_records srt [b; a] (sizeof (category_layout type))
                (compare_frame_number (category_layout type)) w) as Q2.
  simpl List.concat in Q1, Q2. rewrite app_nil_r in Q1, Q2.
  change (Z.of_nat (List.length [a; b])) with 2 in Q1.
  change (Z.of_nat (List.length [b; a])) with 2 in Q2.
  fold (frame_cmp type) in Q1, Q2.
  rewrite Q1
    by first [ lia | simpl; lia | repeat constructor; auto ].
  rewrite Q2
    by first [ lia | simpl; lia | repeat constructor; auto ].
  rewrite S1, S2. simpl. rewrite app_nil_r. split; reflexivity.
Qed.

(** C3 (as the code has it): the comparison functions return the
    difference of the two frame indices converted to [int].  For the
    indices 0x00000001 and 0xFFFFFFFF the difference is 2, "greater", so in
    every category and with every conforming [qsort] the record with index
    0xFFFFFFFF ends up first, not the record with index 0x00000001. *)
Theorem frame_0xFFFFFFFF_sorts_before_frame_1 srt type a b w :
  qsort_contract srt -> 0 <= type <= 5 ->
  is_record type a -> is_record type b ->
  frame_key type a = 0x00000001 -> frame_key type b = 0xFFFFFFFF ->
  VMDqsort srt (Some (a ++ b)) 2 (sizeof (category_layout type)) type w
  = Done (Some (b ++ a)) w /\
  VMDqsort srt (Some (b ++ a)) 2 (sizeof (category_layout type)) type w
  = Done (Some (b ++ a)) w.
Proof.
  intros Hq Ht Ha Hb Ka Kb.
  apply VMDqsort_pair; try assumption.
  rewrite Ka, Kb. vm_compute. reflexivity.
Qed.

Lemma frame_0xFFFFFFFF_sorts_before_frame_1_witness :
  VMDqsort insertion_sort
    (Some (bone_record 0x00000001 ++ bone_record 0xFFFFFFFF)) 2
    (sizeof (category_layout VMDL_BONE)) VMDL_BONE (world_with "in.vmd" [])
  = Done (Some (bone_record 0xFFFFFFFF ++ bone_record 0x00000001))
      (world_with "in.vmd" []) /\
  VMDqsort insertion_sort
    (Some (bone_record 0xFFFFFFFF ++ bone_record 0x00000001)) 2
    (sizeof (category_layout VMDL_BONE)) VMDL_BONE (world_with "in.vmd" [])
  = Done (Some (bone_record 0xFFFFFFFF ++ bone_record 0x00000001))
      (world_with "in.vmd" []).
Proof.
  apply (frame_0xFFFFFFFF_sorts_before_frame_1 insertion_sort VMDL_BONE
           (bone_record 0x00000001) (bone_record 0xFFFFFFFF)
           (world_with "in.vmd" [])).
  - exact insertion_sort_contract.
  - unfold VMDL_BONE. lia.
  - reflexivity.
  - reflexivity.
  - reflexivity.
  - reflexivity.
Defined.

(** C8 (as the code has it): two records in ascending order whose frame
    indices are more than 2^31 apart are put in descending order by the
    sort, in every category and with every conforming [qsort]; so the
    result is not always ascending by frame index. *)
Theorem sort_descends_when_indices_far_apart srt type a b w :
  qsort_contract srt -> 0 <= type <= 5 ->
  is_record type a -> is_record type b ->
  2 ^ 31 < frame_key type b - frame_key type a ->
  VMDqsort srt (Some (a ++ b)) 2 (sizeof (category_layout type)) type w
  = Done (Some (b ++ a)) w /\
  VMDqsort srt (Some (b ++ a)) 2 (sizeof (category_layout type)) type w
  = Done (Some (b ++ a)) w.
Proof.
  intros Hq Ht Ha Hb Hfar.
  apply VMDqsort_pair; try assumption.
  pose proof (proj2 (frame_of_record type a Ht Ha)).
  pose proof (proj2 (frame_of_record type b Ht Hb)).
  rewrite to_int_u32_far by lia. lia.
Qed.

Lemma sort_descends_when_indices_far_apart_witness :
  VMDqsort insertion_sort
    (Some (camera_record 0 ++ camera_record 3000000000)) 2
    (sizeof (category_layout VMDL_CAMERA)) VMDL_CAMERA
    (world_with "in.vmd" [])
  = Done (Some (camera_record 3000000000 ++ camera_record 0))
      (world_with "in.vmd" []) /\
  VMDqsort insertion_sort
    (Some (camera_record 3000000000 ++ camera_record 0)) 2
    (sizeof (category_layout VMDL_CAMERA)) VMDL_CAMERA
    (world_with "in.vmd" [])
  = Done (Some (camera_record 3000000000 ++ camera_record 0))
      (world_with "in.vmd" []).
Proof.
  apply (sort_descends_when_indices_far_apart insertion_sort VMDL_CAMERA
           (camera_record 0) (camera_record 3000000000)
           (world_with "in.vmd" [])).
  - exact insertion_sort_contract.
  - unfold VMDL_CAMERA. lia.
  - reflexivity.
  - reflexivity.
  - vm_compute. reflexivity.
Defined.

(* ================================================================== *)
(** ** Unknown category selector *)

(** C5 (as the code has it): with a selector outside the six categories
    [VMDqsort] never writes [VMD_ERROR].  With a [NULL] [data] or at most
    one record it returns with the records and the whole state, [VMD_ERROR]
    included, as they were; with two or more records it goes on to call
    [qsort] with a [NULL] comparison function. *)
Theorem unknown_selector_records_no_error srt data num size type w :
  type < 0 \/ 5 < type ->
  VMDqsort srt data num size type w
  = match data with
    | None => Done None w
    | Some base =>
        if num <=? 1 then Done (Some base) w else Undefined NullFunctionCall
    end.
Proof.
  intros Ht. destruct data as [base|]; [|reflexivity].
  rewrite VMDqsort_unknown_type by exact Ht.
  unfold qsort, bind. destruct (num <=? 1); reflexivity.
Qed.

Lemma unknown_selector_records_no_error_witness :
  VMDqsort insertion_sort (Some (bone_record 7)) 1
    (sizeof VMDBoneSingleFrame_layout) 6 (world_with "in.vmd" [])
  = Done (Some (bone_record 7)) (world_with "in.vmd" []) /\
  VMD_ERROR (world_with "in.vmd" []) = VMDLIB_E_INIT /\
  VMDqsort insertion_sort (Some (bone_record 7 ++ bone_record 3)) 2
    (sizeof VMDBoneSingleFrame_layout) 6 (world_with "in.vmd" [])
  = Undefined NullFunctionCall.
Proof.
  split; [|split].
  - rewrite (unknown_selector_records_no_error insertion_sort
               (Some (bone_record 7)) 1 (sizeof VMDBoneSingleFrame_layout) 6
               (world_with "in.vmd" [])) by lia.
    reflexivity.
  - reflexivity.
  - rewrite (unknown_selector_records_no_error insertion_sort
               (Some (bone_record 7 ++ bone_record 3)) 2
               (sizeof VMDBoneSingleFrame_layout) 6
               (world_with "in.vmd" [])) by lia.
    reflexivity.
Defined.

(* ================================================================== *)
(** ** Sorting all categories *)

(** C4 (as the code has it): [VMDSortAllFrames] passes
    [sizeof(VMDCameraSingleFrame)] = 61 as the element size of the Light
    category (and of Shadow and ShowIK), whose records have 28 bytes.  With
    two or more Light records the array [qsort] is told about is larger
    than the object holding the records, so the records are not permuted
    as whole 28-byte records: the call reads outside the object. *)
Theorem sort_all_light_element_size srt hdr n blk w :
  2 <= n ->
  Z.of_nat (List.length blk) = sizeof VMDLightSingleFrame_layout * n ->
  VMDSortAllFrames srt
    (Some (mkFile hdr no_frames no_frames no_frames
             (mkFrames n (Some blk)) no_frames no_frames)) w
  = Undefined OutOfBoundsRead.
Proof.
  intros Hn Hlen. sizes.
  unfold VMDSortAllFrames, sort_frames, no_frames.
  cbn [bone_frames morph_frames camera_frames light_frames num_frames frames].
  unfold VMDqsort at 1 2 3. mstep.
  rewrite VMDqsort_known_type by (unfold VMDL_LIGHT; lia).
  unfold qsort. mstep. sizes.
  replace (n <=? 1) with false by (symmetry; apply Z.leb_gt; lia).
  rewrite mem_read_None by lia.
  reflexivity.
Qed.

Lemma sort_all_light_element_size_witness :
  VMDSortAllFrames insertion_sort
    (Some (mkFile (mkHeader VMDLIB_MAGIC (repeat x00 20))
             no_frames no_frames no_frames
             (mkFrames 2 (Some (light_record 2 ++ light_record 1)))
             no_frames no_frames))
    (world_with "in.vmd" [])
  = Undefined OutOfBoundsRead.
Proof.
  apply (sort_all_light_element_size insertion_sort
           (mkHeader VMDLIB_MAGIC (repeat x00 20)) 2
           (light_record 2 ++ light_record 1) (world_with "in.vmd" [])).
  - lia.
  - reflexivity.
Defined.

(* ================================================================== *)
(** ** What the sort does achieve *)

(** With no record or a single one, nothing is compared or moved and no
    error is recorded, whatever the selector. *)
Lemma VMDqsort_at_most_one srt data num size type w :
  num <= 1 -> VMDqsort srt data num size type w = Done data w.
Proof.
  intros Hn. destruct data as [base|]; [|reflexivity].
  unfold VMDqsort, qsort, bind.
  replace (num <=? 1) with true by (symmetry; apply Z.leb_le; exact Hn).
  reflexivity.
Qed.

Lemma StronglySorted_in_impl {A} (R R' : A -> A -> Prop) (l : list A) :
  (forall a b, In a l -> In b l -> R a b -> R' a b) ->
  StronglySorted R l -> StronglySorted R' l.
Proof.
  intros Himp Hs. induction Hs as [|a l Hs IH Hf]; constructor.
  - apply IH. intros x y Hx Hy. apply Himp; right; assumption.
  - rewrite Forall_forall in *. intros x Hx.
    apply Himp; [left; reflexivity | right; exact Hx | apply Hf; exact Hx].
Qed.

(** While all frame indices are below 2^31 the difference is the true
    one, the comparison is consistent, and the category comes out as a
    permutation of its records in ascending order of frame index. *)
Lemma VMDqsort_sorts_below_2_31 srt type (recs : list block) w :
  qsort_contract srt -> 0 <= type <= 5 ->
  Forall (is_record type) recs ->
  Forall (fun r => frame_key type r < 2 ^ 31) recs ->
  exists recs',
    VMDqsort srt (Some (List.concat recs)) (Z.of_nat (List.length recs))
      (sizeof (category_layout type)) type w
    = Done (Some (List.concat recs')) w /\
    Permutation recs recs' /\
    StronglySorted (fun a b => frame_key type a <= frame_key type b) recs'.
Proof.
  intros [Hperm Hasc] Ht Hrec Hsmall.
  destruct (le_lt_dec (List.length recs) 1) as [Hshort|Hlong].
  - exists recs. split; [apply VMDqsort_at_most_one; lia|].
    split; [apply Permutation_refl|].
    destruct recs as [|r [|r' recs]]; simpl in Hshort; try lia;
      repeat constructor.
  - rewrite Forall_forall in Hrec, Hsmall.
    assert (Hcmp : forall a b, In a recs -> In b recs ->
              frame_cmp type a b = frame_key type a - frame_key type b).
    { intros a b Ia Ib.
      rewrite frame_cmp_records by auto.
      pose proof (proj2 (frame_of_record type a Ht (Hrec a Ia))).
      pose proof (proj2 (frame_of_record type b Ht (Hrec b Ib))).
      pose proof (Hsmall a Ia). pose proof (Hsmall b Ib).
      apply to_int_u32_small. lia. }
    assert (Hc : consistent_on (frame_cmp type) recs).
    { split.
      - intros a b Ia Ib. rewrite !Hcmp by assumption. lia.
      - intros a b c Ia Ib Ic. rewrite !Hcmp by assumption. lia. }
    exists (srt (frame_cmp type) recs).
    pose proof (Hperm _ _ Hc) as P. pose proof (Hasc _ _ Hc) as A.
    split; [|split; [exact P|]].
    + rewrite VMDqsort_known_type by exact Ht. unfold bind.
      rewrite qsort_on_records.
      * reflexivity.
      * pose proof (record_size_pos type Ht). lia.
      * apply Forall_forall. exact Hrec.
      * lia.
      * apply Forall_forall. intros r Hr. unfold compare_frame_number.
        rewrite (proj1 (frame_of_record type r Ht (Hrec r Hr))).
        reflexivity.
    + apply (StronglySorted_in_impl (fun a b => frame_cmp type a b <= 0));
        [|exact A].
      intros a b Ia Ib.
      rewrite Hcmp
        by (eapply Permutation_in; [apply Permutation_sym; exact P|];
            assumption).
      lia.
Qed.

Lemma sorted_perm_unique (l1 l2 : list Z) :
  StronglySorted Z.le l1 -> StronglySorted Z.le l2 ->
  Permutation l1 l2 -> l1 = l2.
Proof.
  revert l2. induction l1 as [|a l1 IH]; intros l2 S1 S2 P.
  - apply Permutation_nil in P. subst. reflexivity.
  - destruct l2 as [|b l2];
      [apply Permutation_sym, Permutation_nil in P; discriminate|].
    inversion S1 as [|? ? S1' F1]; inversion S2 as [|? ? S2' F2]; subst.
    rewrite Forall_forall in F1, F2.
    assert (a = b).
    { assert (Ia : In a (b :: l2))
        by (eapply Permutation_in; [exact P | left; reflexivity]).
      assert (Ib : In b (a :: l1))
        by (eapply Permutation_in;
            [apply Permutation_sym; exact P | left; reflexivity]).
      destruct Ia as [Ea|Ia]; [symmetry; exact Ea|].
      destruct Ib as [Eb|Ib]; [exact Eb|].
      pose proof (F1 _ Ib). pose proof (F2 _ Ia). lia. }
    subst b. f_equal. apply IH; try assumption.
    eapply Permutation_cons_inv. exact P.
Qed.

(** Records with the frame indices 5, 1, 3, 1 read back as 1, 1, 3, 5. *)
Lemma VMDqsort_sorts_5_1_3_1 srt type (recs : list block) w :
  qsort_contract srt -> 0 <= type <= 5 ->
  Forall (is_record type) recs ->
  map (frame_key type) recs = [5; 1; 3; 1] ->
  exists recs',
    VMDqsort srt (Some (List.concat recs)) (Z.of_nat (List.length recs))
      (sizeof (category_layout type)) type w
    = Done (Some (List.concat recs')) w /\
    Permutation recs recs' /\
    map (frame_key type) recs' = [1; 1; 3; 5].
Proof.
  intros Hq Ht Hrec Hk.
  destruct (VMDqsort_sorts_below_2_31 srt type recs w Hq Ht Hrec)
    as (recs' & E & P & S).
  { apply Forall_forall. intros r Hr.
    assert (Hin : In (frame_key type r) [5; 1; 3; 1])
      by (rewrite <- Hk; apply in_map; exact Hr).
    simpl in Hin. lia. }
  exists recs'. split; [exact E|]. split; [exact P|].
  apply sorted_perm_unique.
  - clear - S. induction S as [|a l S IH F]; simpl; constructor.
    + exact IH.
    + rewrite Forall_forall in *. intros k Hk'.
      apply in_map_iff in Hk'. destruct Hk' as (b & <- & Hb). auto.
  - repeat constructor; lia.
  - eapply Permutation_trans;
      [apply Permutation_map, Permutation_sym; exact P|].
    rewrite Hk.
    apply (Permutation_trans (l' := [1; 5; 3; 1]));
      [apply perm_swap|]. apply perm_skip.
    apply (Permutation_trans (l' := [3; 5; 1]));
      [apply perm_swap|].
    apply (Permutation_trans (l' := [3; 1; 5]));
      [apply perm_skip, perm_swap|]. apply perm_swap.
Qed.

Example VMDqsort_sorts_5_1_3_1_example :
  exists recs',
    VMDqsort insertion_sort
      (Some (List.concat (map light_record [5; 1; 3; 1])))
      (Z.of_nat (List.length (map light_record [5; 1; 3; 1])))
      (sizeof (category_layout VMDL_LIGHT)) VMDL_LIGHT
      (world_with "in.vmd" [])
    = Done (Some (List.concat recs')) (world_with "in.vmd" []) /\
    Permutation (map light_record [5; 1; 3; 1]) recs' /\
    map (frame_key VMDL_LIGHT) recs' = [1; 1; 3; 5].
Proof.
  apply VMDqsort_sorts_5_1_3_1.
  - exact insertion_sort_contract.
  - unfold VMDL_LIGHT. lia.
  - repeat constructor.
  - reflexivity.
Qed.

(* ================================================================== *)
(** * Further properties of the loader, the writer, the sorter and the
      driver *)

(** ** The steps of a completed load *)

Lemma mem_read_inv (m : block) (off len : Z) (bs : list byte) :
  mem_read m off len = Some bs ->
  0 <= off /\ 0 <= len /\ off + len <= Z.of_nat (List.length m) /\
  bs = firstn (Z.to_nat len) (skipn (Z.to_nat off) m).
Proof.
  unfold mem_read.
  destruct ((0 <=? off) && (0 <=? len)
            && (off + len <=? Z.of_nat (List.length m))) eqn:E;
    [|discriminate].
  rewrite !andb_true_iff, !Z.leb_le in E.
  intros H. injection H as <-. tauto.
Qed.

Lemma mem_read_extends_prefix (m : block) (off len : Z) (bs : list byte) :
  mem_read m off len = Some bs ->
  firstn (Z.to_nat (off + len)) m = firstn (Z.to_nat off) m ++ bs.
Proof.
  intros H. apply mem_read_inv in H. destruct H as (Ho & Hl & Hb & ->).
  rewrite <- (firstn_skipn (Z.to_nat off) (firstn (Z.to_nat (off + len)) m))
    at 1.
  rewrite firstn_firstn.
  replace (Init.Nat.min (Z.to_nat off) (Z.to_nat (off + len)))
    with (Z.to_nat off) by lia.
  rewrite firstn_skipn_comm.
  replace (Z.to_nat off + Z.to_nat len)%nat with (Z.to_nat (off + len))
    by lia.
  reflexivity.
Qed.

(** The facts a completed [load_frames] yields about the buffer. *)
Lemma load_frames_reads content off size w fr off' w' :
  load_frames content off size w = Done (fr, off') w' ->
  mem_read content off 4 = Some (bytes_of_u32 (num_frames fr)) /\
  off' = u32 (u32 (off + 4) + u32 (size * num_frames fr)) /\
  match frames fr with
  | None => num_frames fr = 0
  | Some blk =>
      mem_read content (u32 (off + 4)) (u32 (size * num_frames fr))
      = Some blk
  end.
Proof.
  unfold load_frames. mstep.
  destruct (mem_read content off 4) as [cnt|] eqn:Ec; [|discriminate].
  pose proof (mem_read_length _ _ _ _ Ec) as Hl4.
  assert (Hcnt : bytes_of_u32 (u32_of_bytes cnt) = cnt)
    by (apply bytes_of_u32_of_bytes; lia).
  pose proof (u32_of_bytes_range cnt) as Hr.
  destruct (u32_of_bytes cnt =? 0) eqn:E0; mstep.
  - apply Z.eqb_eq in E0. intros H. injection H as <- <- _.
    cbn [num_frames frames]. rewrite Hcnt, E0.
    repeat split; try reflexivity.
    rewrite Z.mul_0_r. change (u32 0) with 0. rewrite Z.add_0_r.
    unfold u32. rewrite Z.mod_mod by lia. reflexivity.
  - destruct (malloc_steady (u32 (size * u32_of_bytes cnt)) w)
      as (w1 & -> & _).
    destruct (hd true (heap w)); mstep; [|discriminate].
    destruct (mem_read content (u32 (off + 4))
                (u32 (size * u32_of_bytes cnt))) as [recs|] eqn:Er;
      [|discriminate].
    intros H. injection H as <- <- _.
    cbn [num_frames frames]. rewrite Hcnt. auto.
Qed.

(** Without wrap-around, a completed [load_frames] has consumed exactly the
    image of the category it returns. *)
Lemma load_frames_prefix content off size w fr off' w' :
  load_frames content off size w = Done (fr, off') w' ->
  0 <= off -> 0 <= size -> off + 4 + size * num_frames fr < 2 ^ 32 ->
  off' = off + 4 + size * num_frames fr /\
  off' <= Z.of_nat (List.length content) /\
  firstn (Z.to_nat off') content
  = firstn (Z.to_nat off) content ++ frames_image fr.
Proof.
  intros H Ho Hs Hlt.
  pose proof (load_frames_inv _ _ _ _ _ _ _ H) as [[Hr _] _].
  apply load_frames_reads in H. destruct H as (Hc & -> & Hf).
  rewrite (u32_small (off + 4)) in * by nia.
  rewrite (u32_small (size * num_frames fr)) in * by nia.
  rewrite u32_small by nia.
  pose proof (mem_read_extends_prefix _ _ _ _ Hc) as P4.
  pose proof (mem_read_inv _ _ _ _ Hc) as (_ & _ & B4 & _).
  unfold frames_image.
  destruct (frames fr) as [blk|].
  - pose proof (mem_read_extends_prefix _ _ _ _ Hf) as Pb.
    pose proof (mem_read_inv _ _ _ _ Hf) as (_ & _ & Bb & _).
    split; [lia|]. split; [lia|].
    replace (off + 4 + size * num_frames fr)
      with (off + 4 + size * num_frames fr) by lia.
    rewrite Pb, P4, <- app_assoc. reflexivity.
  - rewrite Hf in *. split; [lia|]. split; [lia|].
    rewrite Z.mul_0_r, Z.add_0_r, app_nil_r. exact P4.
Qed.

(** A completed load, step by step. *)
Lemma VMDLoadFromFile_steps fname w d w' :
  VMDLoadFromFile fname w = Done (Some d) w' ->
  exists f hdr o1 o2 o3 o4 o5 o6 w0 w1 w2 w3 w4 w5,
    fs_read w fname = Some f /\ fread_fails f = false /\
    mem_read (f_bytes f) 0 30 = Some VMDLIB_MAGIC /\
    mem_read (f_bytes f) 0 50 = Some hdr /\
    file_header d = mkHeader (firstn 30 hdr) (skipn 30 hdr) /\
    load_frames (f_bytes f) 50 111 w0 = Done (bone_frames d, o1) w1 /\
    load_frames (f_bytes f) o1 23 w1 = Done (morph_frames d, o2) w2 /\
    load_frames (f_bytes f) o2 61 w2 = Done (camera_frames d, o3) w3 /\
    load_frames (f_bytes f) o3 28 w3 = Done (light_frames d, o4) w4 /\
    load_frames (f_bytes f) o4 9 w4 = Done (shadow_frames d, o5) w5 /\
    load_frames (f_bytes f) o5 30 w5 = Done (ik_frames d, o6) w'.
Proof.
  unfold VMDLoadFromFile. mstep_io. sizes.
  destruct (fs_read w fname) as [f|]; [|discriminate].
  destruct (malloc_steady (Z.of_nat (List.length (f_bytes f)) + 1) w)
    as (wa & -> & _).
  destruct (hd true (heap w)); mstep_io; [|discriminate].
  destruct (fread_fails f) eqn:Efr; [discriminate|].
  unfold __VMDCheckHeader. mstep_io.
  change (offsetof VMDHeader_layout "header") with 0.
  destruct (mem_read (f_bytes f) 0 30) as [magic|] eqn:Em; [|discriminate].
  destruct (memcmp_eq VMDLIB_MAGIC magic) eqn:Ec; mstep_io; [|discriminate].
  apply memcmp_eq_iff in Ec. subst magic.
  destruct (malloc_steady sizeof_VMDFile wa) as (wb & -> & _).
  destruct (hd true (heap wa)); mstep_io; [|discriminate].
  destruct (mem_read (f_bytes f) 0 50) as [hdr|] eqn:Eh; [|discriminate].
  change (u32 (0 + 50)) with 50.
  destruct (load_frames (f_bytes f) 50 111 wb) as [[fr1 o1] w1|] eqn:E1;
    [|discriminate].
  destruct (load_frames (f_bytes f) o1 23 w1) as [[fr2 o2] w2|] eqn:E2;
    [|discriminate].
  destruct (load_frames (f_bytes f) o2 61 w2) as [[fr3 o3] w3|] eqn:E3;
    [|discriminate].
  destruct (load_frames (f_bytes f) o3 28 w3) as [[fr4 o4] w4|] eqn:E4;
    [|discriminate].
  destruct (load_frames (f_bytes f) o4 9 w4) as [[fr5 o5] w5|] eqn:E5;
    [|discriminate].
  destruct (load_frames (f_bytes f) o5 30 w5) as [[fr6 o6] w6|] eqn:E6;
    [|discriminate].
  intros H. injection H as <- <-.
  exists f, hdr, o1, o2, o3, o4, o5, o6, wb, w1, w2, w3, w4, w5.
  cbn [file_header bone_frames morph_frames camera_frames light_frames
       shadow_frames ik_frames].
  repeat (split; [first [reflexivity | assumption]|]). assumption.
Qed.

(** ** When the loader returns nothing *)

Lemma load_NULL_inv fname w w' :
  VMDLoadFromFile fname w = Done None w' ->
  fs_read w' = fs_read w /\ fs_writable w' = fs_writable w /\
  ((fs_read w fname = None /\ VMD_ERROR w' = VMDLIB_E_FH) \/
   exists f,
     fs_read w fname = Some f /\
     ((hd true (heap w) = false /\ VMD_ERROR w' = VMDLIB_E_ME) \/
      (hd true (heap w) = true /\ fread_fails f = true /\
       VMD_ERROR w' = VMD_ERROR w) \/
      (hd true (heap w) = true /\ fread_fails f = false /\
       (30 <= List.length (f_bytes f))%nat /\
       firstn 30 (f_bytes f) <> VMDLIB_MAGIC /\
       VMD_ERROR w' = VMDLIB_E_FT))).
Proof.
  unfold VMDLoadFromFile. mstep_io. sizes.
  destruct (fs_read w fname) as [f|] eqn:Ef.
  2:{ intros H. injection H as <-. cbn [VMD_ERROR fs_read fs_writable].
      split; [reflexivity|]. split; [reflexivity|].
      left. split; reflexivity. }
  destruct (malloc_steady (Z.of_nat (List.length (f_bytes f)) + 1) w)
    as (wa & -> & (Ea & Fa & Ga & _)).
  destruct (hd true (heap w)) eqn:Eh0; mstep_io.
  2:{ intros H. injection H as <-. cbn [VMD_ERROR fs_read fs_writable].
      split; [exact Fa|]. split; [exact Ga|].
      right. exists f. split; [reflexivity|]. left.
      split; reflexivity. }
  destruct (fread_fails f) eqn:Efr.
  { intros H. injection H as <-.
    split; [exact Fa|]. split; [exact Ga|].
    right. exists f. split; [reflexivity|]. right. left.
    repeat split; first [reflexivity | assumption]. }
  unfold __VMDCheckHeader. mstep_io.
  change (offsetof VMDHeader_layout "header") with 0.
  destruct (mem_read (f_bytes f) 0 30) as [magic|] eqn:Em; [|discriminate].
  pose proof (mem_read_inv _ _ _ _ Em) as (_ & _ & Hlen & Hmagic).
  change (Z.to_nat 30) with 30%nat in Hmagic.
  change (Z.to_nat 0) with 0%nat in Hmagic. cbn [skipn] in Hmagic.
  destruct (memcmp_eq VMDLIB_MAGIC magic) eqn:Ec; mstep_io.
  - destruct (malloc_steady sizeof_VMDFile wa) as (wb & -> & _).
    destruct (hd true (heap wa)); mstep_io; [|discriminate].
    match goal with
    | |- context [mem_read (f_bytes f) 0 50] =>
        destruct (mem_read (f_bytes f) 0 50); [|discriminate]
    end.
    repeat
      match goal with
      | |- context [load_frames ?c ?o ?s ?w] =>
          destruct (load_frames c o s w) as [[? ?] ?|]; [|discriminate]
      end.
    discriminate.
  - intros H. injection H as <-. cbn [VMD_ERROR fs_read fs_writable].
    split; [exact Fa|]. split; [exact Ga|].
    right. exists f. split; [reflexivity|]. right. right.
    repeat split; try first [reflexivity | assumption].
    + lia.
    + intros E. rewrite <- Hmagic in E. subst magic.
      assert (memcmp_eq VMDLIB_MAGIC VMDLIB_MAGIC = true) by reflexivity.
      congruence.
Qed.



(** ** What a successful load guarantees *)

(** X2: a load that returns a document has read it from an existing
    file; the document's header is the first 30 bytes of the file, which
    are the magic, and its model name the next 20; every count is a
    [uint32_t], a zero count goes with a [NULL] record pointer and any
    other count [n] with storage of [sizeof(record) * n] bytes taken in
    [uint32_t]; and neither [VMD_ERROR] nor the files have changed (so an
    error recorded by an earlier call is still there). *)
Theorem load_success_invariants fname w d w' :
  VMDLoadFromFile fname w = Done (Some d) w' ->
  (exists f,
     fs_read w fname = Some f /\
     header (file_header d) = firstn 30 (f_bytes f) /\
     model_name (file_header d) = firstn 20 (skipn 30 (f_bytes f))) /\
  header (file_header d) = VMDLIB_MAGIC /\
  List.length (model_name (file_header d)) = 20%nat /\
  on_categories loaded_frames d /\
  VMD_ERROR w' = VMD_ERROR w /\ fs_read w' = fs_read w /\
  fs_writable w' = fs_writable w.
Proof.
  intros H.
  pose proof (VMDLoadFromFile_inv _ _ _ _ H) as [[[Hm Hn] Hc] (E & F & G & _)].
  apply VMDLoadFromFile_steps in H.
  destruct H as (f & hdr & o1 & o2 & o3 & o4 & o5 & o6 & w0 & w1 & w2 & w3
                 & w4 & w5 & Hf & _ & _ & Hh & Hd & _).
  split; [|tauto].
  exists f. split; [exact Hf|].
  apply mem_read_inv in Hh. destruct Hh as (_ & _ & _ & ->).
  rewrite Hd. cbn [header model_name]. simpl skipn at 1.
  change (Z.to_nat 50) with 50%nat. split.
  - rewrite firstn_firstn. reflexivity.
  - simpl skipn at 2. rewrite skipn_firstn_comm. reflexivity.
Qed.

Lemma load_success_invariants_witness :
  (exists f,
     fs_read (world_with "in.vmd" (file_image showik_doc)) "in.vmd" = Some f /\
     header (file_header showik_doc) = firstn 30 (f_bytes f) /\
     model_name (file_header showik_doc) = firstn 20 (skipn 30 (f_bytes f))) /\
  header (file_header showik_doc) = VMDLIB_MAGIC /\
  List.length (model_name (file_header showik_doc)) = 20%nat /\
  on_categories loaded_frames showik_doc /\
  VMD_ERROR (world_with "in.vmd" (file_image showik_doc))
  = VMD_ERROR (world_with "in.vmd" (file_image showik_doc)) /\
  fs_read (world_with "in.vmd" (file_image showik_doc))
  = fs_read (world_with "in.vmd" (file_image showik_doc)) /\
  fs_writable (world_with "in.vmd" (file_image showik_doc))
  = fs_writable (world_with "in.vmd" (file_image showik_doc)).
Proof.
  apply (load_success_invariants "in.vmd"
           (world_with "in.vmd" (file_image showik_doc)) showik_doc
           (world_with "in.vmd" (file_image showik_doc))).
  vm_compute. reflexivity.
Defined.

(** ** Bytes after the last category *)

(** X3: whatever follows the ShowIK records in the file is ignored: a
    file that starts with the image of a well-formed document of less
    than 2^32 announced bytes loads into that document, whatever bytes
    come after the image (allocations succeeding). *)
Theorem load_ignores_trailing_bytes d fname rest w :
  wf_file d -> announced_size d < 2 ^ 32 ->
  fs_read w fname = Some (mkDiskFile (file_image d ++ rest) true) ->
  heap_ok w ->
  exists w', VMDLoadFromFile fname w = Done (Some d) w'
             /\ VMD_ERROR w' = VMD_ERROR w.
Proof.
  intros Hwf Hsz Hf Hh.
  destruct (VMDLoadFromFile_image d fname rest w Hwf Hsz Hf Hh)
    as (w' & E & St).
  exists w'. split; [exact E | exact (proj1 St)].
Qed.

Lemma load_ignores_trailing_bytes_witness :
  exists w',
    VMDLoadFromFile "in.vmd"
      (world_with "in.vmd" (file_image showik_doc ++ [x09; x0a; x0b]))
    = Done (Some showik_doc) w'
    /\ VMD_ERROR w'
       = VMD_ERROR
           (world_with "in.vmd" (file_image showik_doc ++ [x09; x0a; x0b])).
Proof.
  apply (load_ignores_trailing_bytes showik_doc "in.vmd" [x09; x0a; x0b]
           (world_with "in.vmd" (file_image showik_doc ++ [x09; x0a; x0b]))).
  - unfold wf_file, wf_header, on_categories, wf_frames.
    vm_compute. repeat split; discriminate.
  - vm_compute. reflexivity.
  - reflexivity.
  - constructor.
Defined.

(** ** Writing back what was loaded *)

Lemma loaded_file_image_is_prefix fname w d w' f :
  VMDLoadFromFile fname w = Done (Some d) w' ->
  fs_read w fname = Some f ->
  announced_size d < 2 ^ 32 ->
  announced_size d <= Z.of_nat (List.length (f_bytes f)) /\
  file_image d = firstn (Z.to_nat (announced_size d)) (f_bytes f).
Proof.
  intros H Hf Hsz.
  pose proof (VMDLoadFromFile_inv _ _ _ _ H)
    as [[_ (B & Mo & C & L & S & I)] _].
  apply VMDLoadFromFile_steps in H.
  destruct H as (f' & hdr & o1 & o2 & o3 & o4 & o5 & o6 & w0 & w1 & w2 & w3
                 & w4 & w5 & Hf' & _ & _ & Hh & Hd & E1 & E2 & E3 & E4 & E5
                 & E6).
  rewrite Hf in Hf'. injection Hf' as <-.
  pose proof (proj1 B). pose proof (proj1 Mo). pose proof (proj1 C).
  pose proof (proj1 L). pose proof (proj1 S). pose proof (proj1 I).
  unfold announced_size in *. sizes.
  apply load_frames_prefix in E1; [|lia..]. destruct E1 as (-> & _ & P1).
  apply load_frames_prefix in E2; [|lia..]. destruct E2 as (-> & _ & P2).
  apply load_frames_prefix in E3; [|lia..]. destruct E3 as (-> & _ & P3).
  apply load_frames_prefix in E4; [|lia..]. destruct E4 as (-> & _ & P4).
  apply load_frames_prefix in E5; [|lia..]. destruct E5 as (-> & _ & P5).
  apply load_frames_prefix in E6; [|lia..]. destruct E6 as (Eo & Hb & P6).
  subst o6.
  pose proof (mem_read_extends_prefix _ _ _ _ Hh) as P0.
  change (firstn (Z.to_nat 0) (f_bytes f)) with (@nil byte) in P0.
  change (0 + 50) with 50 in P0. cbn [app] in P0.
  split; [lia|].
  match goal with
  | |- _ = firstn (Z.to_nat ?n) _ =>
      match type of P6 with
      | firstn (Z.to_nat ?k) _ = _ => replace n with k by lia
      end
  end.
  rewrite P6, P5, P4, P3, P2, P1, P0.
  unfold file_image. rewrite Hd. cbn [header model_name].
  rewrite (app_assoc (firstn 30 hdr) (skipn 30 hdr)), firstn_skipn.
  rewrite <- !app_assoc. reflexivity.
Qed.

(** X4: writing a loaded document reproduces the file it was loaded from,
    byte for byte, up to the end of the ShowIK records: when the sizes the
    counts announce stay below 2^32, the file holds at least that many
    bytes and [VMDWriteToFile] writes exactly the first of them. *)
Theorem write_reproduces_loaded_bytes fname out w d w1 f :
  VMDLoadFromFile fname w = Done (Some d) w1 ->
  fs_read w fname = Some f ->
  announced_size d < 2 ^ 32 ->
  fs_writable w1 out = true ->
  announced_size d <= Z.of_nat (List.length (f_bytes f)) /\
  VMDWriteToFile (Some d) out w1
  = Done true
      (written out (firstn (Z.to_nat (announced_size d)) (f_bytes f)) w1).
Proof.
  intros H Hf Hsz Hw.
  destruct (loaded_file_image_is_prefix _ _ _ _ _ H Hf Hsz) as [Hle <-].
  split; [exact Hle|].
  apply VMDLoadFromFile_inv in H. destruct H as [Hld _].
  apply VMDWriteToFile_wf; [|exact Hw].
  exact (proj2 (loaded_wf_file d Hsz Hld)).
Qed.

Lemma write_reproduces_loaded_bytes_witness :
  announced_size showik_doc
  <= Z.of_nat
       (List.length
          (f_bytes (mkDiskFile (file_image showik_doc ++ [x09; x0a]) true))) /\
  VMDWriteToFile (Some showik_doc) "out.vmd"
    (world_with "in.vmd" (file_image showik_doc ++ [x09; x0a]))
  = Done true
      (written "out.vmd"
         (firstn (Z.to_nat (announced_size showik_doc))
            (f_bytes (mkDiskFile (file_image showik_doc ++ [x09; x0a]) true)))
         (world_with "in.vmd" (file_image showik_doc ++ [x09; x0a]))).
Proof.
  apply (write_reproduces_loaded_bytes "in.vmd" "out.vmd"
           (world_with "in.vmd" (file_image showik_doc ++ [x09; x0a]))).
  - vm_compute. reflexivity.
  - reflexivity.
  - vm_compute. reflexivity.
  - reflexivity.
Defined.

(** X5: write, then load.  A well-formed document (every count equal to
    the number of records held, a zero count with a [NULL] pointer) of
    less than 2^32 announced bytes, however it was built, is written
    without error, and loading the written file returns the same document;
    [VMD_ERROR] and the other files are as before. *)
Theorem write_then_load_returns_document d out w :
  wf_file d -> announced_size d < 2 ^ 32 ->
  fs_writable w out = true -> heap_ok w ->
  exists w1 w2,
    VMDWriteToFile (Some d) out w = Done true w1 /\
    VMDLoadFromFile out w1 = Done (Some d) w2 /\
    VMD_ERROR w2 = VMD_ERROR w /\
    forall other, String.eqb other out = false ->
                  fs_read w2 other = fs_read w other.
Proof.
  intros Hwf Hsz Hw Hh.
  exists (written out (file_image d) w).
  destruct (VMDLoadFromFile_image d out [] (written out (file_image d) w))
    as (w2 & El & (E & F & _)); try assumption.
  { unfold written. cbn [fs_read]. rewrite String.eqb_refl, app_nil_r.
    reflexivity. }
  exists w2. split; [|split; [exact El|split]].
  - apply VMDWriteToFile_wf; [exact (proj2 Hwf) | exact Hw].
  - rewrite E. reflexivity.
  - intros other Ho. rewrite F. unfold written. cbn [fs_read].
    rewrite Ho. reflexivity.
Qed.

Lemma write_then_load_returns_document_witness :
  exists w1 w2,
    VMDWriteToFile (Some showik_doc) "out.vmd" (world_with "in.vmd" [])
    = Done true w1 /\
    VMDLoadFromFile "out.vmd" w1 = Done (Some showik_doc) w2 /\
    VMD_ERROR w2 = VMD_ERROR (world_with "in.vmd" []) /\
    forall other, String.eqb other "out.vmd" = false ->
                  fs_read w2 other = fs_read (world_with "in.vmd" []) other.
Proof.
  apply (write_then_load_returns_document showik_doc "out.vmd"
           (world_with "in.vmd" [])).
  - unfold wf_file, wf_header, on_categories, wf_frames.
    vm_compute. repeat split; discriminate.
  - vm_compute. reflexivity.
  - reflexivity.
  - constructor.
Defined.

(** ** Files that end early *)

(** X6: the loader reads all six counts unconditionally.  A file that ends
    after the Light category (as files saved by MMD up to v6.19 do,
    according to [vmd.h]) or after the Shadow category (MMD up to v7.39),
    with fewer than four bytes left, makes it read the next count past the
    end of the file's bytes. *)
Theorem load_needs_all_six_counts fname w nm b m c l shadow tail :
  List.length nm = 20%nat ->
  wf_frames (sizeof VMDBoneSingleFrame_layout) b ->
  wf_frames (sizeof VMDMorphSingleFrame_layout) m ->
  wf_frames (sizeof VMDCameraSingleFrame_layout) c ->
  wf_frames (sizeof VMDLightSingleFrame_layout) l ->
  match shadow with
  | Some s => wf_frames (sizeof VMDShadowSingleFrame_layout) s
  | None => True
  end ->
  sizeof VMDHeader_layout
  + (4 + sizeof VMDBoneSingleFrame_layout * num_frames b)
  + (4 + sizeof VMDMorphSingleFrame_layout * num_frames m)
  + (4 + sizeof VMDCameraSingleFrame_layout * num_frames c)
  + (4 + sizeof VMDLightSingleFrame_layout * num_frames l)
  + optional_size shadow + 4 < 2 ^ 32 ->
  (List.length tail < 4)%nat ->
  fs_read w fname
  = Some (mkDiskFile
            (VMDLIB_MAGIC ++ nm ++ frames_image b ++ frames_image m
             ++ frames_image c ++ frames_image l ++ optional_image shadow
             ++ tail) true) ->
  heap_ok w ->
  VMDLoadFromFile fname w = Undefined OutOfBoundsRead.
Proof.
  intros Hnm B Mo C L S Hsz Htail Hf Hh.
  pose proof (frames_image_length _ _ B) as Lb.
  pose proof (frames_image_length _ _ Mo) as Lm.
  pose proof (frames_image_length _ _ C) as Lc.
  pose proof (frames_image_length _ _ L) as Ll.
  pose proof (proj1 B). pose proof (proj1 Mo). pose proof (proj1 C).
  pose proof (proj1 L).
  assert (Lh : Z.of_nat (List.length VMDLIB_MAGIC) = 30) by reflexivity.
  assert (Ls : Z.of_nat (List.length (optional_image shadow))
               = optional_size shadow /\ 0 <= optional_size shadow).
  { destruct shadow as [s|]; cbn [optional_image optional_size].
    - rewrite (frames_image_length _ _ S). pose proof (proj1 S).
      change (sizeof VMDShadowSingleFrame_layout) with 9. lia.
    - simpl. lia. }
  destruct Ls as [Ls Ls0].
  sizes.
  remember (VMDLIB_MAGIC ++ nm ++ frames_image b ++ frames_image m
            ++ frames_image c ++ frames_image l ++ optional_image shadow
            ++ tail) as content eqn:Ec.
  assert (Lcont : Z.of_nat (List.length content)
                  = 50 + (4 + 111 * num_frames b) + (4 + 23 * num_frames m)
                    + (4 + 61 * num_frames c) + (4 + 28 * num_frames l)
                    + optional_size shadow + Z.of_nat (List.length tail)).
  { rewrite Ec, !length_app. lia. }
  unfold VMDLoadFromFile. mstep_io. sizes. rewrite Hf.
  cbn [f_bytes f_read_ok].
  malloc_ok Hh.
  unfold fread_fails. cbn [f_bytes f_read_ok].
  replace (Z.of_nat (List.length content) =? 0) with false
    by (symmetry; apply Z.eqb_neq; lia).
  cbn [negb orb].
  unfold __VMDCheckHeader. mstep_io.
  rewrite (mem_read_at content [] VMDLIB_MAGIC
             (nm ++ frames_image b ++ frames_image m ++ frames_image c
              ++ frames_image l ++ optional_image shadow ++ tail))
    by first [ reflexivity | exact Ec ].
  replace (memcmp_eq VMDLIB_MAGIC VMDLIB_MAGIC) with true by reflexivity.
  mstep_io.
  malloc_ok Hh.
  rewrite (mem_read_at content [] (VMDLIB_MAGIC ++ nm)
             (frames_image b ++ frames_image m ++ frames_image c
              ++ frames_image l ++ optional_image shadow ++ tail))
    by first [ reflexivity | rewrite length_app; lia
             | rewrite Ec, <- !app_assoc; reflexivity ].
  change (u32 (0 + 50)) with 50.
  load_image_step (VMDLIB_MAGIC ++ nm)
    (frames_image m ++ frames_image c ++ frames_image l
     ++ optional_image shadow ++ tail) B Hh Ec.
  load_image_step (VMDLIB_MAGIC ++ nm ++ frames_image b)
    (frames_image c ++ frames_image l ++ optional_image shadow ++ tail)
    Mo Hh Ec.
  load_image_step (VMDLIB_MAGIC ++ nm ++ frames_image b ++ frames_image m)
    (frames_image l ++ optional_image shadow ++ tail) C Hh Ec.
  load_image_step
    (VMDLIB_MAGIC ++ nm ++ frames_image b ++ frames_image m
     ++ frames_image c)
    (optional_image shadow ++ tail) L Hh Ec.
  destruct shadow as [s|]; cbn [optional_image optional_size] in *; sizes.
  - pose proof (proj1 S).
    load_image_step
      (VMDLIB_MAGIC ++ nm ++ frames_image b ++ frames_image m
       ++ frames_image c ++ frames_image l)
      tail S Hh Ec.
    unfold load_frames. mstep_io.
    rewrite mem_read_None by lia. reflexivity.
  - unfold load_frames. mstep_io.
    rewrite mem_read_None by lia. reflexivity.
Qed.

(** A file of the older layout: header, then four empty categories. *)
Lemma load_needs_all_six_counts_witness :
  VMDLoadFromFile "in.vmd"
    (world_with "in.vmd"
       (VMDLIB_MAGIC ++ repeat x00 20 ++ frames_image no_frames
        ++ frames_image no_frames ++ frames_image no_frames
        ++ frames_image no_frames ++ optional_image None ++ []))
  = Undefined OutOfBoundsRead.
Proof.
  apply (load_needs_all_six_counts "in.vmd"
           (world_with "in.vmd"
              (VMDLIB_MAGIC ++ repeat x00 20 ++ frames_image no_frames
               ++ frames_image no_frames ++ frames_image no_frames
               ++ frames_image no_frames ++ optional_image None ++ []))
           (repeat x00 20) no_frames no_frames no_frames no_frames None []).
  - reflexivity.
  - unfold wf_frames. simpl. lia.
  - unfold wf_frames. simpl. lia.
  - unfold wf_frames. simpl. lia.
  - unfold wf_frames. simpl. lia.
  - exact I.
  - vm_compute. reflexivity.
  - simpl. lia.
  - reflexivity.
  - constructor.
Defined.



(** ** The outcomes of the writer *)

Lemma fwrite_frames_outcome (size : Z) (fr : VMDFrames) (w : world) :
  fwrite_frames fr size w
  = if storage_suffices size fr then Done (written_frames size fr) w
    else Undefined OutOfBoundsRead.
Proof.
  unfold fwrite_frames, storage_suffices, written_frames.
  destruct (frames fr) as [blk|]; mstep; [|reflexivity].
  unfold mem_read. cbn [Z.leb Z.compare andb Z.add].
  change (Z.to_nat 0) with 0%nat. cbn [skipn].
  destruct ((0 <=? size * num_frames fr)
            && (size * num_frames fr <=? Z.of_nat (List.length blk)));
    reflexivity.
Qed.

(** X8: when the writer returns [false] it has written nothing and has
    recorded why: [VMDLIB_E_IV] for a [NULL] document, [VMDLIB_E_FH] when
    the file could not be opened for writing. *)
Theorem write_failure_cases vf out w w' :
  VMDWriteToFile vf out w = Done false w' ->
  fs_read w' = fs_read w /\ fs_writable w' = fs_writable w /\
  ((vf = None /\ VMD_ERROR w' = VMDLIB_E_IV) \/
   (vf <> None /\ fs_writable w out = false /\ VMD_ERROR w' = VMDLIB_E_FH)).
Proof.
  unfold VMDWriteToFile.
  destruct vf as [d|]; mstep_io.
  - destruct (fs_writable w out) eqn:Ew; mstep_io.
    + repeat (rewrite fwrite_frames_outcome;
              match goal with
              | |- context [storage_suffices ?s ?fr] =>
                  destruct (storage_suffices s fr)
              end; cbv beta iota; try discriminate).
    + intros H. injection H as <-. cbn [VMD_ERROR fs_read fs_writable].
      split; [reflexivity|]. split; [reflexivity|]. right.
      repeat split; first [reflexivity | discriminate].
  - intros H. injection H as <-. cbn [VMD_ERROR fs_read fs_writable].
    split; [reflexivity|]. split; [reflexivity|]. left.
    split; reflexivity.
Qed.

Lemma write_failure_cases_witness :
  fs_read
    (mkWorld VMDLIB_E_IV (fs_read (world_with "in.vmd" []))
       (fs_writable (world_with "in.vmd" [])) [])
  = fs_read (world_with "in.vmd" []) /\
  fs_writable
    (mkWorld VMDLIB_E_IV (fs_read (world_with "in.vmd" []))
       (fs_writable (world_with "in.vmd" [])) [])
  = fs_writable (world_with "in.vmd" []) /\
  ((@None VMDFile = None /\
    VMD_ERROR
      (mkWorld VMDLIB_E_IV (fs_read (world_with "in.vmd" []))
         (fs_writable (world_with "in.vmd" [])) [])
    = VMDLIB_E_IV) \/
   (@None VMDFile <> None /\
    fs_writable (world_with "in.vmd" []) "out.vmd" = false /\
    VMD_ERROR
      (mkWorld VMDLIB_E_IV (fs_read (world_with "in.vmd" []))
         (fs_writable (world_with "in.vmd" [])) [])
    = VMDLIB_E_FH)).
Proof.
  apply (write_failure_cases None "out.vmd" (world_with "in.vmd" [])).
  reflexivity.
Defined.

Lemma VMDWriteToFile_outcome d out w :
  fs_writable w out = true ->
  VMDWriteToFile (Some d) out w
  = if storage_suffices (sizeof VMDBoneSingleFrame_layout) (bone_frames d)
       && storage_suffices (sizeof VMDMorphSingleFrame_layout)
            (morph_frames d)
       && storage_suffices (sizeof VMDCameraSingleFrame_layout)
            (camera_frames d)
       && storage_suffices (sizeof VMDLightSingleFrame_layout)
            (light_frames d)
       && storage_suffices (sizeof VMDShadowSingleFrame_layout)
            (shadow_frames d)
       && storage_suffices (sizeof VMDIKSingleFrame_layout) (ik_frames d)
    then
      Done true
        (written out
           (header (file_header d) ++ model_name (file_header d)
            ++ written_frames (sizeof VMDBoneSingleFrame_layout)
                 (bone_frames d)
            ++ written_frames (sizeof VMDMorphSingleFrame_layout)
                 (morph_frames d)
            ++ written_frames (sizeof VMDCameraSingleFrame_layout)
                 (camera_frames d)
            ++ written_frames (sizeof VMDLightSingleFrame_layout)
                 (light_frames d)
            ++ written_frames (sizeof VMDShadowSingleFrame_layout)
                 (shadow_frames d)
            ++ written_frames (sizeof VMDIKSingleFrame_layout)
                 (ik_frames d))
           w)
    else Undefined OutOfBoundsRead.
Proof.
  intros Hw. unfold VMDWriteToFile. mstep_io. rewrite Hw. mstep_io.
  repeat (rewrite fwrite_frames_outcome;
          match goal with
          | |- context [if storage_suffices ?s ?fr then Done _ _ else _] =>
              destruct (storage_suffices s fr)
          end; cbv beta iota; cbn [andb]; try reflexivity).
  unfold fclose_wb. rewrite <- !app_assoc. reflexivity.
Qed.

(** X9: once the file is open the writer never fails: it either writes or
    reads outside a category's storage.  The counts are authoritative: for
    each category it writes the count and the first [num_frames] records
    of the storage (nothing for a [NULL] pointer, whatever the count), and
    what the storage holds beyond them is not written; when some storage
    holds fewer bytes than its count announces, the write reads past it.
    [VMD_ERROR] is not touched. *)
Theorem write_outcome d out w :
  fs_writable w out = true ->
  VMDWriteToFile (Some d) out w
  = if storage_suffices (sizeof VMDBoneSingleFrame_layout) (bone_frames d)
       && storage_suffices (sizeof VMDMorphSingleFrame_layout)
            (morph_frames d)
       && storage_suffices (sizeof VMDCameraSingleFrame_layout)
            (camera_frames d)
       && storage_suffices (sizeof VMDLightSingleFrame_layout)
            (light_frames d)
       && storage_suffices (sizeof VMDShadowSingleFrame_layout)
            (shadow_frames d)
       && storage_suffices (sizeof VMDIKSingleFrame_layout) (ik_frames d)
    then
      Done true
        (written out
           (header (file_header d) ++ model_name (file_header d)
            ++ written_frames (sizeof VMDBoneSingleFrame_layout)
                 (bone_frames d)
            ++ written_frames (sizeof VMDMorphSingleFrame_layout)
                 (morph_frames d)
            ++ written_frames (sizeof VMDCameraSingleFrame_layout)
                 (camera_frames d)
            ++ written_frames (sizeof VMDLightSingleFrame_layout)
                 (light_frames d)
            ++ written_frames (sizeof VMDShadowSingleFrame_layout)
                 (shadow_frames d)
            ++ written_frames (sizeof VMDIKSingleFrame_layout)
                 (ik_frames d))
           w)
    else Undefined OutOfBoundsRead.
Proof. apply VMDWriteToFile_outcome. Qed.

(** A Bone category whose storage holds two records while its count is 1:
    only the first record is written. *)
Lemma write_outcome_witness :
  VMDWriteToFile
    (Some (mkFile (mkHeader VMDLIB_MAGIC (repeat x00 20))
             (mkFrames 1 (Some (bone_record 4 ++ bone_record 9)))
             no_frames no_frames no_frames no_frames no_frames))
    "out.vmd" (world_with "in.vmd" [])
  = Done true
      (written "out.vmd"
         (VMDLIB_MAGIC ++ repeat x00 20
          ++ (bytes_of_u32 1 ++ bone_record 4) ++ repeat x00 20)
         (world_with "in.vmd" [])).
Proof.
  rewrite (write_outcome
             (mkFile (mkHeader VMDLIB_MAGIC (repeat x00 20))
                (mkFrames 1 (Some (bone_record 4 ++ bone_record 9)))
                no_frames no_frames no_frames no_frames no_frames)
             "out.vmd" (world_with "in.vmd" []))
    by reflexivity.
  reflexivity.
Defined.

(** ** The comparison functions, case by case *)

Lemma to_int_u32_high (x : Z) :
  2 ^ 31 <= x < 2 ^ 32 -> to_int (u32 x) = x - 2 ^ 32.
Proof.
  intros Hx. unfold to_int, u32. rewrite Z.mod_mod by lia.
  rewrite Z.mod_small by lia.
  replace (x <? 2 ^ 31) with false by (symmetry; apply Z.ltb_ge; lia).
  reflexivity.
Qed.

Lemma to_int_u32_min : to_int (u32 (- 2 ^ 31)) = - 2 ^ 31.
Proof. reflexivity. Qed.

(** X10: what the comparison functions return for two records of their
    category with frame indices [fa] and [fb].  The result is 0 exactly
    when the indices are equal.  When the indices are less than 2^31 apart
    the result is their true difference, so its sign orders them; when
    they are more than 2^31 apart the sign is the opposite of their order;
    at a distance of exactly 2^31 the result is negative both ways round. *)
Theorem comparison_result type a b :
  0 <= type <= 5 -> is_record type a -> is_record type b ->
  exists v,
    compare_frame_number (category_layout type) a b = Some v /\
    (v = 0 <-> frame_key type a = frame_key type b) /\
    (Z.abs (frame_key type a - frame_key type b) < 2 ^ 31 ->
     v = frame_key type a - frame_key type b) /\
    (2 ^ 31 < Z.abs (frame_key type a - frame_key type b) ->
     (v < 0 <-> frame_key type b < frame_key type a) /\
     (0 < v <-> frame_key type a < frame_key type b)) /\
    (Z.abs (frame_key type a - frame_key type b) = 2 ^ 31 -> v = - 2 ^ 31).
Proof.
  intros Ht Ha Hb.
  destruct (frame_of_record type a Ht Ha) as [Fa Ra].
  destruct (frame_of_record type b Ht Hb) as [Fb Rb].
  exists (to_int (u32 (frame_key type a - frame_key type b))).
  split; [unfold compare_frame_number; rewrite Fa, Fb; reflexivity|].
  set (fa := frame_key type a) in *. set (fb := frame_key type b) in *.
  assert (Cases : (- 2 ^ 31 <= fa - fb < 2 ^ 31) \/
                  (2 ^ 31 <= fa - fb < 2 ^ 32) \/
                  (- 2 ^ 32 < fa - fb < - 2 ^ 31)) by lia.
  destruct Cases as [Hs|[Hh|Hf]].
  - rewrite to_int_u32_small by lia. lia.
  - rewrite to_int_u32_high by lia. lia.
  - rewrite to_int_u32_far by lia. lia.
Qed.

Lemma comparison_result_witness :
  exists v,
    compare_frame_number (category_layout VMDL_BONE)
      (bone_record 7) (bone_record 4000000000) = Some v /\
    (v = 0 <->
     frame_key VMDL_BONE (bone_record 7)
     = frame_key VMDL_BONE (bone_record 4000000000)) /\
    (Z.abs (frame_key VMDL_BONE (bone_record 7)
            - frame_key VMDL_BONE (bone_record 4000000000)) < 2 ^ 31 ->
     v = frame_key VMDL_BONE (bone_record 7)
         - frame_key VMDL_BONE (bone_record 4000000000)) /\
    (2 ^ 31 < Z.abs (frame_key VMDL_BONE (bone_record 7)
                     - frame_key VMDL_BONE (bone_record 4000000000)) ->
     (v < 0 <->
      frame_key VMDL_BONE (bone_record 4000000000)
      < frame_key VMDL_BONE (bone_record 7)) /\
     (0 < v <->
      frame_key VMDL_BONE (bone_record 7)
      < frame_key VMDL_BONE (bone_record 4000000000))) /\
    (Z.abs (frame_key VMDL_BONE (bone_record 7)
            - frame_key VMDL_BONE (bone_record 4000000000)) = 2 ^ 31 ->
     v = - 2 ^ 31).
Proof.
  apply (comparison_result VMDL_BONE (bone_record 7)
           (bone_record 4000000000)).
  - unfold VMDL_BONE. lia.
  - reflexivity.
  - reflexivity.
Defined.

(** X11: the comparison is not an order on frame indices.  Three records
    whose indices climb in two steps of less than 2^31 to a total of more
    than 2^31 compare in a cycle (first below second, second below third,
    third below first), so on an array holding them the comparison
    function does not meet what the C standard requires of the function
    passed to [qsort]. *)
Theorem comparison_is_cyclic type a b c l :
  0 <= type <= 5 ->
  is_record type a -> is_record type b -> is_record type c ->
  0 < frame_key type b - frame_key type a < 2 ^ 31 ->
  0 < frame_key type c - frame_key type b < 2 ^ 31 ->
  2 ^ 31 < frame_key type c - frame_key type a ->
  In a l -> In b l -> In c l ->
  frame_cmp type a b < 0 /\ frame_cmp type b c < 0 /\
  frame_cmp type c a < 0 /\ ~ consistent_on (frame_cmp type) l.
Proof.
  intros Ht Ha Hb Hc Hab Hbc Hac Ia Ib Ic.
  pose proof (proj2 (frame_of_record type a Ht Ha)).
  pose proof (proj2 (frame_of_record type c Ht Hc)).
  assert (Cab : frame_cmp type a b < 0)
    by (rewrite frame_cmp_records, to_int_u32_small by (auto; lia); lia).
  assert (Cbc : frame_cmp type b c < 0)
    by (rewrite frame_cmp_records, to_int_u32_small by (auto; lia); lia).
  assert (Cca : frame_cmp type c a < 0)
    by (rewrite frame_cmp_records, to_int_u32_high by (auto; lia); lia).
  repeat split; try assumption.
  intros [Hanti Htrans].
  assert (frame_cmp type a c <= 0)
    by (apply (Htrans a b c); auto; lia).
  assert (0 < frame_cmp type a c) by (apply Hanti; auto).
  lia.
Qed.

Lemma comparison_is_cyclic_witness :
  frame_cmp VMDL_LIGHT (light_record 0) (light_record 0x60000000) < 0 /\
  frame_cmp VMDL_LIGHT (light_record 0x60000000) (light_record 0xC0000000)
  < 0 /\
  frame_cmp VMDL_LIGHT (light_record 0xC0000000) (light_record 0) < 0 /\
  ~ consistent_on (frame_cmp VMDL_LIGHT)
      [light_record 0; light_record 0x60000000; light_record 0xC0000000].
Proof.
  apply (comparison_is_cyclic VMDL_LIGHT (light_record 0)
           (light_record 0x60000000) (light_record 0xC0000000)).
  - unfold VMDL_LIGHT. lia.
  - reflexivity.
  - reflexivity.
  - reflexivity.
  - vm_compute. split; reflexivity.
  - vm_compute. split; reflexivity.
  - vm_compute. reflexivity.
  - left. reflexivity.
  - right. left. reflexivity.
  - right. right. left. reflexivity.
Defined.

(** ** Sorting one category *)

Lemma qsort_on_records_rest srt (recs : list block) (rest : list byte)
  (size : Z) (cmp : comparator) w :
  0 <= size ->
  Forall (fun r => Z.of_nat (List.length r) = size) recs ->
  (2 <= List.length recs)%nat ->
  Forall (fun r => is_some (cmp r r) = true) recs ->
  qsort srt (List.concat recs ++ rest) (Z.of_nat (List.length recs)) size
    (Some cmp) w
  = Done (List.concat (srt (fun a b => or_zero (cmp a b)) recs) ++ rest) w.
Proof.
  intros Hs Hrecs Hlen Hcmp. unfold qsort.
  replace (Z.of_nat (List.length recs) <=? 1) with false
    by (symmetry; apply Z.leb_gt; lia).
  assert (Hrecs' : Forall (fun r => List.length r = Z.to_nat size) recs).
  { eapply Forall_impl; [|exact Hrecs]. simpl. intros r Hr. lia. }
  pose proof (concat_records_length _ _ Hrecs') as Hcl.
  assert (El : Z.of_nat (List.length recs) * size
               = Z.of_nat (List.length (List.concat recs))).
  { rewrite Hcl. lia. }
  mstep. rewrite El.
  rewrite (mem_read_at (List.concat recs ++ rest) [] (List.concat recs) rest)
    by reflexivity.
  rewrite !Nat2Z.id.
  pose proof (chunks_concat _ _ [] Hrecs') as Hch.
  rewrite app_nil_r in Hch. rewrite Hch.
  replace (forallb (fun e => is_some (cmp e e)) recs) with true
    by (symmetry; apply forallb_forall; apply Forall_forall; exact Hcmp).
  rewrite skipn_app, skipn_all, Nat.sub_diag. reflexivity.
Qed.

Lemma VMDqsort_window srt type (recs : list block)
  (rest : list byte) (lo : Z) w :
  qsort_contract srt -> 0 <= type <= 5 ->
  Forall (is_record type) recs ->
  Forall (fun r => lo <= frame_key type r < lo + 2 ^ 31) recs ->
  exists recs',
    VMDqsort srt (Some (List.concat recs ++ rest))
      (Z.of_nat (List.length recs)) (sizeof (category_layout type)) type w
    = Done (Some (List.concat recs' ++ rest)) w /\
    Permutation recs recs' /\
    StronglySorted (fun a b => frame_key type a <= frame_key type b) recs'.
Proof.
  intros [Hperm Hasc] Ht Hrec Hwin.
  destruct (le_lt_dec (List.length recs) 1) as [Hshort|Hlong].
  - exists recs. split; [apply VMDqsort_at_most_one; lia|].
    split; [apply Permutation_refl|].
    destruct recs as [|r [|r' recs]]; simpl in Hshort; try lia;
      repeat constructor.
  - rewrite Forall_forall in Hrec, Hwin.
    assert (Hcmp : forall a b, In a recs -> In b recs ->
              frame_cmp type a b = frame_key type a - frame_key type b).
    { intros a b Ia Ib.
      rewrite frame_cmp_records by auto.
      pose proof (Hwin a Ia). pose proof (Hwin b Ib).
      apply to_int_u32_small. lia. }
    assert (Hc : consistent_on (frame_cmp type) recs).
    { split.
      - intros a b Ia Ib. rewrite !Hcmp by assumption. lia.
      - intros a b c Ia Ib Ic. rewrite !Hcmp by assumption. lia. }
    exists (srt (frame_cmp type) recs).
    pose proof (Hperm _ _ Hc) as P. pose proof (Hasc _ _ Hc) as A.
    split; [|split; [exact P|]].
    + rewrite VMDqsort_known_type by exact Ht. unfold bind.
      rewrite qsort_on_records_rest.
      * reflexivity.
      * pose proof (record_size_pos type Ht). lia.
      * apply Forall_forall. exact Hrec.
      * lia.
      * apply Forall_forall. intros r Hr. unfold compare_frame_number.
        rewrite (proj1 (frame_of_record type r Ht (Hrec r Hr))).
        reflexivity.
    + apply (StronglySorted_in_impl (fun a b => frame_cmp type a b <= 0));
        [|exact A].
      intros a b Ia Ib.
      rewrite Hcmp
        by (eapply Permutation_in; [apply Permutation_sym; exact P|];
            assumption).
      lia.
Qed.

(** X12: [VMDqsort] with a category's own record size and selector, on
    storage that starts with [num] whole records whose frame indices lie
    within a window of 2^31: the records come out as a permutation of
    themselves in ascending order of frame index, each moved as a whole;
    the bytes of the storage after the [num] records, [VMD_ERROR] and the
    files are untouched. *)
Theorem VMDqsort_sorts_within_window srt type (recs : list block)
  (rest : list byte) (lo : Z) w :
  qsort_contract srt -> 0 <= type <= 5 ->
  Forall (is_record type) recs ->
  Forall (fun r => lo <= frame_key type r < lo + 2 ^ 31) recs ->
  exists recs',
    VMDqsort srt (Some (List.concat recs ++ rest))
      (Z.of_nat (List.length recs)) (sizeof (category_layout type)) type w
    = Done (Some (List.concat recs' ++ rest)) w /\
    Permutation recs recs' /\
    StronglySorted (fun a b => frame_key type a <= frame_key type b) recs'.
Proof. apply VMDqsort_window. Qed.

(** Three Camera records with indices near 2^32, followed by two bytes. *)
Lemma VMDqsort_sorts_within_window_witness :
  exists recs',
    VMDqsort insertion_sort
      (Some (List.concat
               [camera_record 4294967295; camera_record 4000000000;
                camera_record 4100000000] ++ [x01; x02]))
      (Z.of_nat
         (List.length
            [camera_record 4294967295; camera_record 4000000000;
             camera_record 4100000000]))
      (sizeof (category_layout VMDL_CAMERA)) VMDL_CAMERA
      (world_with "in.vmd" [])
    = Done (Some (List.concat recs' ++ [x01; x02])) (world_with "in.vmd" [])
    /\ Permutation
         [camera_record 4294967295; camera_record 4000000000;
          camera_record 4100000000] recs'
    /\ StronglySorted
         (fun a b => frame_key VMDL_CAMERA a <= frame_key VMDL_CAMERA b)
         recs'.
Proof.
  apply (VMDqsort_sorts_within_window insertion_sort VMDL_CAMERA
           [camera_record 4294967295; camera_record 4000000000;
            camera_record 4100000000] [x01; x02] 4000000000
           (world_with "in.vmd" [])).
  - exact insertion_sort_contract.
  - unfold VMDL_CAMERA. lia.
  - repeat constructor.
  - repeat constructor; vm_compute; discriminate.
Defined.

(** ** Sorting and the rest of the state *)

Lemma qsort_keeps_world srt base num size compar w r w' :
  qsort srt base num size compar w = Done r w' -> w' = w.
Proof.
  unfold qsort. destruct (num <=? 1); mstep.
  - intros H. injection H as _ <-. reflexivity.
  - destruct compar as [cmp|]; [|discriminate]. mstep.
    destruct (mem_read base 0 (num * size)); [|discriminate].
    match goal with
    | |- context [if ?c then _ else _] => destruct c
    end; [|discriminate].
    intros H. injection H as _ <-. reflexivity.
Qed.

Lemma VMDqsort_keeps_world srt data num size type w r w' :
  VMDqsort srt data num size type w = Done r w' ->
  w' = w /\ (data = None <-> r = None).
Proof.
  unfold VMDqsort. destruct data as [base|].
  - unfold bind.
    match goal with
    | |- context [qsort srt base num size ?f w] =>
        destruct (qsort srt base num size f w) as [b w1|] eqn:E;
        [|discriminate]
    end.
    apply qsort_keeps_world in E. subst w1.
    intros H. injection H as <- <-.
    split; [reflexivity|]. split; discriminate.
  - intros H. injection H as <- <-. tauto.
Qed.

Lemma sort_frames_keeps srt fr size type w fr' w' :
  sort_frames srt fr size type w = Done fr' w' ->
  w' = w /\ num_frames fr' = num_frames fr /\
  (frames fr = None <-> frames fr' = None).
Proof.
  unfold sort_frames, bind.
  destruct (VMDqsort srt (frames fr) (num_frames fr) size type w)
    as [r w1|] eqn:E; [|discriminate].
  apply VMDqsort_keeps_world in E. destruct E as [-> Hn].
  intros H. injection H as <- <-. cbn [num_frames frames]. tauto.
Qed.

Lemma VMDSortAllFrames_keeps srt d w d' w' :
  VMDSortAllFrames srt (Some d) w = Done d' w' ->
  w' = w /\ file_header d' = file_header d /\
  num_frames (bone_frames d') = num_frames (bone_frames d) /\
  num_frames (morph_frames d') = num_frames (morph_frames d) /\
  num_frames (camera_frames d') = num_frames (camera_frames d) /\
  num_frames (light_frames d') = num_frames (light_frames d) /\
  num_frames (shadow_frames d') = num_frames (shadow_frames d) /\
  num_frames (ik_frames d') = num_frames (ik_frames d) /\
  (frames (bone_frames d) = None <-> frames (bone_frames d') = None) /\
  (frames (morph_frames d) = None <-> frames (morph_frames d') = None) /\
  (frames (camera_frames d) = None <-> frames (camera_frames d') = None) /\
  (frames (light_frames d) = None <-> frames (light_frames d') = None) /\
  (frames (shadow_frames d) = None <-> frames (shadow_frames d') = None) /\
  (frames (ik_frames d) = None <-> frames (ik_frames d') = None).
Proof.
  unfold VMDSortAllFrames, bind.
  repeat
    match goal with
    | |- context [sort_frames srt ?fr ?s ?t ?w0] =>
        let E := fresh "E" in
        destruct (sort_frames srt fr s t w0) as [? ?|] eqn:E;
        [apply sort_frames_keeps in E; destruct E as (-> & ? & ?)
        | discriminate]
    end.
  unfold ret. intros Hret. injection Hret as <- <-.
  cbn [file_header bone_frames morph_frames camera_frames light_frames
       shadow_frames ik_frames].
  repeat split; assumption || tauto.
Qed.

(** X13: sorting changes records only.  Whatever the selector, sizes and
    [qsort] are, a [VMDSortAllFrames] that returns leaves [VMD_ERROR], the
    files, the header and all six counts as they were, and a category
    with a [NULL] record pointer keeps it. *)
Theorem sort_all_changes_records_only srt d w d' w' :
  VMDSortAllFrames srt (Some d) w = Done d' w' ->
  w' = w /\ file_header d' = file_header d /\
  num_frames (bone_frames d') = num_frames (bone_frames d) /\
  num_frames (morph_frames d') = num_frames (morph_frames d) /\
  num_frames (camera_frames d') = num_frames (camera_frames d) /\
  num_frames (light_frames d') = num_frames (light_frames d) /\
  num_frames (shadow_frames d') = num_frames (shadow_frames d) /\
  num_frames (ik_frames d') = num_frames (ik_frames d) /\
  (frames (bone_frames d) = None <-> frames (bone_frames d') = None) /\
  (frames (morph_frames d) = None <-> frames (morph_frames d') = None) /\
  (frames (camera_frames d) = None <-> frames (camera_frames d') = None) /\
  (frames (light_frames d) = None <-> frames (light_frames d') = None) /\
  (frames (shadow_frames d) = None <-> frames (shadow_frames d') = None) /\
  (frames (ik_frames d) = None <-> frames (ik_frames d') = None).
Proof. apply VMDSortAllFrames_keeps. Qed.

Lemma sort_all_changes_records_only_witness :
  world_with "in.vmd" [] = world_with "in.vmd" [] /\
  file_header two_bones_sorted_doc = file_header two_bones_doc /\
  num_frames (bone_frames two_bones_sorted_doc)
  = num_frames (bone_frames two_bones_doc) /\
  num_frames (morph_frames two_bones_sorted_doc)
  = num_frames (morph_frames two_bones_doc) /\
  num_frames (camera_frames two_bones_sorted_doc)
  = num_frames (camera_frames two_bones_doc) /\
  num_frames (light_frames two_bones_sorted_doc)
  = num_frames (light_frames two_bones_doc) /\
  num_frames (shadow_frames two_bones_sorted_doc)
  = num_frames (shadow_frames two_bones_doc) /\
  num_frames (ik_frames two_bones_sorted_doc)
  = num_frames (ik_frames two_bones_doc) /\
  (frames (bone_frames two_bones_doc) = None
   <-> frames (bone_frames two_bones_sorted_doc) = None) /\
  (frames (morph_frames two_bones_doc) = None
   <-> frames (morph_frames two_bones_sorted_doc) = None) /\
  (frames (camera_frames two_bones_doc) = None
   <-> frames (camera_frames two_bones_sorted_doc) = None) /\
  (frames (light_frames two_bones_doc) = None
   <-> frames (light_frames two_bones_sorted_doc) = None) /\
  (frames (shadow_frames two_bones_doc) = None
   <-> frames (shadow_frames two_bones_sorted_doc) = None) /\
  (frames (ik_frames two_bones_doc) = None
   <-> frames (ik_frames two_bones_sorted_doc) = None).
Proof.
  apply (sort_all_changes_records_only insertion_sort two_bones_doc
           (world_with "in.vmd" []) two_bones_sorted_doc
           (world_with "in.vmd" [])).
  vm_compute. reflexivity.
Defined.

(** ** Sorting all categories: when it returns, and what it gives *)

Lemma sort_frames_camera_size srt fr sz type w fr' w' :
  wf_frames sz fr -> 0 < sz < 61 -> 0 <= type <= 5 ->
  sort_frames srt fr 61 type w = Done fr' w' ->
  num_frames fr <= 1 /\ fr' = fr.
Proof.
  intros [Hr Hf] Hsz Ht. destruct fr as [n data]. cbn [num_frames frames] in *.
  unfold sort_frames, bind. cbn [num_frames frames].
  destruct (Z_le_gt_dec n 1) as [Hle|Hgt].
  - rewrite VMDqsort_at_most_one by exact Hle.
    intros H. injection H as <- _. split; [exact Hle | reflexivity].
  - destruct data as [blk|]; [|lia].
    destruct Hf as [_ Hl].
    rewrite VMDqsort_known_type by exact Ht.
    unfold qsort.
    replace (n <=? 1) with false by (symmetry; apply Z.leb_gt; lia).
    mstep. rewrite mem_read_None by nia. discriminate.
Qed.

(** X14: [VMDSortAllFrames] sorts the Light, Shadow and ShowIK categories
    with the record size of the Camera category.  On a document whose
    storage matches its counts the call can therefore return only if each
    of these three categories holds at most one record, and it returns
    them unchanged. *)
Theorem sort_all_returns_only_for_motion_data srt d w d' w' :
  VMDSortAllFrames srt (Some d) w = Done d' w' ->
  wf_frames (sizeof VMDLightSingleFrame_layout) (light_frames d) ->
  wf_frames (sizeof VMDShadowSingleFrame_layout) (shadow_frames d) ->
  wf_frames (sizeof VMDIKSingleFrame_layout) (ik_frames d) ->
  num_frames (light_frames d) <= 1 /\ num_frames (shadow_frames d) <= 1 /\
  num_frames (ik_frames d) <= 1 /\
  light_frames d' = light_frames d /\ shadow_frames d' = shadow_frames d /\
  ik_frames d' = ik_frames d.
Proof.
  intros H L S I. sizes. revert H.
  unfold VMDSortAllFrames, bind. sizes.
  destruct (sort_frames srt (bone_frames d) 111 VMDL_BONE w)
    as [b1 w1|]; [|discriminate].
  destruct (sort_frames srt (morph_frames d) 23 VMDL_MORPH w1)
    as [m1 w2|]; [|discriminate].
  destruct (sort_frames srt (camera_frames d) 61 VMDL_CAMERA w2)
    as [c1 w3|]; [|discriminate].
  destruct (sort_frames srt (light_frames d) 61 VMDL_LIGHT w3)
    as [l1 w4|] eqn:El; [|discriminate].
  destruct (sort_frames srt (shadow_frames d) 61 VMDL_SHADOW w4)
    as [s1 w5|] eqn:Es; [|discriminate].
  destruct (sort_frames srt (ik_frames d) 61 VMDL_IK w5)
    as [i1 w6|] eqn:Ei; [|discriminate].
  apply (sort_frames_camera_size _ _ 28) in El;
    [|assumption | lia | unfold VMDL_LIGHT; lia].
  apply (sort_frames_camera_size _ _ 9) in Es;
    [|assumption | lia | unfold VMDL_SHADOW; lia].
  apply (sort_frames_camera_size _ _ 30) in Ei;
    [|assumption | lia | unfold VMDL_IK; lia].
  unfold ret. intros H. injection H as <- _.
  cbn [light_frames shadow_frames ik_frames]. tauto.
Qed.

Lemma sort_all_returns_only_for_motion_data_witness :
  num_frames (light_frames two_bones_doc) <= 1 /\
  num_frames (shadow_frames two_bones_doc) <= 1 /\
  num_frames (ik_frames two_bones_doc) <= 1 /\
  light_frames two_bones_sorted_doc = light_frames two_bones_doc /\
  shadow_frames two_bones_sorted_doc = shadow_frames two_bones_doc /\
  ik_frames two_bones_sorted_doc = ik_frames two_bones_doc.
Proof.
  apply (sort_all_returns_only_for_motion_data insertion_sort two_bones_doc
           (world_with "in.vmd" []) two_bones_sorted_doc
           (world_with "in.vmd" [])).
  - vm_compute. reflexivity.
  - unfold wf_frames. simpl. lia.
  - unfold wf_frames. simpl. lia.
  - unfold wf_frames. simpl. lia.
Defined.

Lemma sort_frames_records srt type (recs : list block) (lo : Z) w :
  qsort_contract srt -> 0 <= type <= 5 ->
  Forall (is_record type) recs ->
  Forall (fun r => lo <= frame_key type r < lo + 2 ^ 31) recs ->
  exists recs',
    sort_frames srt (frames_of_records recs) (sizeof (category_layout type))
      type w
    = Done (frames_of_records recs') w /\
    Permutation recs recs' /\
    StronglySorted (fun a b => frame_key type a <= frame_key type b) recs'.
Proof.
  intros Hq Ht Hrec Hwin.
  destruct recs as [|r recs].
  - exists []. split; [reflexivity|]. split; constructor.
  - destruct (VMDqsort_window srt type (r :: recs) [] lo w Hq Ht Hrec Hwin)
      as (recs' & E & P & S).
    exists recs'. split; [|split; assumption].
    unfold sort_frames, frames_of_records, bind. cbn [num_frames frames].
    rewrite !app_nil_r in E. rewrite E. unfold ret.
    rewrite <- (Permutation_length P).
    destruct recs' as [|r' recs'];
      [apply Permutation_sym, Permutation_nil in P; discriminate|].
    reflexivity.
Qed.

Lemma sort_all_sorts_motion_data_aux srt hdr bones morphs cameras
  light shadow ik lb lm lc w :
  qsort_contract srt ->
  Forall (is_record VMDL_BONE) bones ->
  Forall (fun r => lb <= frame_key VMDL_BONE r < lb + 2 ^ 31) bones ->
  Forall (is_record VMDL_MORPH) morphs ->
  Forall (fun r => lm <= frame_key VMDL_MORPH r < lm + 2 ^ 31) morphs ->
  Forall (is_record VMDL_CAMERA) cameras ->
  Forall (fun r => lc <= frame_key VMDL_CAMERA r < lc + 2 ^ 31) cameras ->
  num_frames light <= 1 -> num_frames shadow <= 1 -> num_frames ik <= 1 ->
  exists bones' morphs' cameras',
    VMDSortAllFrames srt
      (Some (mkFile hdr (frames_of_records bones) (frames_of_records morphs)
               (frames_of_records cameras) light shadow ik)) w
    = Done (mkFile hdr (frames_of_records bones')
              (frames_of_records morphs') (frames_of_records cameras')
              light shadow ik) w /\
    Permutation bones bones' /\
    StronglySorted
      (fun a b => frame_key VMDL_BONE a <= frame_key VMDL_BONE b) bones' /\
    Permutation morphs morphs' /\
    StronglySorted
      (fun a b => frame_key VMDL_MORPH a <= frame_key VMDL_MORPH b) morphs' /\
    Permutation cameras cameras' /\
    StronglySorted
      (fun a b => frame_key VMDL_CAMERA a <= frame_key VMDL_CAMERA b)
      cameras'.
Proof.
  intros Hq Rb Wb Rm Wm Rc Wc Hl Hs Hi.
  destruct (sort_frames_records srt VMDL_BONE bones lb w Hq
              ltac:(unfold VMDL_BONE; lia) Rb Wb) as (bones' & Eb & Pb & Sb).
  destruct (sort_frames_records srt VMDL_MORPH morphs lm w Hq
              ltac:(unfold VMDL_MORPH; lia) Rm Wm) as (morphs' & Em & Pm & Sm).
  destruct (sort_frames_records srt VMDL_CAMERA cameras lc w Hq
              ltac:(unfold VMDL_CAMERA; lia) Rc Wc)
    as (cameras' & Ec & Pc & Sc).
  exists bones', morphs', cameras'.
  split; [|tauto].
  unfold VMDSortAllFrames, bind.
  cbn [file_header bone_frames morph_frames camera_frames light_frames
       shadow_frames ik_frames].
  change (sizeof VMDBoneSingleFrame_layout)
    with (sizeof (category_layout VMDL_BONE)).
  change (sizeof VMDMorphSingleFrame_layout)
    with (sizeof (category_layout VMDL_MORPH)).
  rewrite Eb, Em.
  change (sizeof VMDCameraSingleFrame_layout)
    with (sizeof (category_layout VMDL_CAMERA)) at 1.
  rewrite Ec.
  unfold sort_frames, bind, ret.
  repeat (rewrite VMDqsort_at_most_one by assumption; cbv beta iota).
  destruct light, shadow, ik. reflexivity.
Qed.

(** X15: on motion data [VMDSortAllFrames] does its job.  When the Bone,
    Morph and Camera categories hold whole records whose frame indices
    lie, per category, within a window of 2^31, and the Light, Shadow and
    ShowIK categories hold at most one record each, the call returns the
    document with each of the first three categories permuted into
    ascending order of frame index and everything else, [VMD_ERROR] and
    the files included, unchanged. *)
Theorem sort_all_sorts_motion_data srt hdr bones morphs cameras
  light shadow ik lb lm lc w :
  qsort_contract srt ->
  Forall (is_record VMDL_BONE) bones ->
  Forall (fun r => lb <= frame_key VMDL_BONE r < lb + 2 ^ 31) bones ->
  Forall (is_record VMDL_MORPH) morphs ->
  Forall (fun r => lm <= frame_key VMDL_MORPH r < lm + 2 ^ 31) morphs ->
  Forall (is_record VMDL_CAMERA) cameras ->
  Forall (fun r => lc <= frame_key VMDL_CAMERA r < lc + 2 ^ 31) cameras ->
  num_frames light <= 1 -> num_frames shadow <= 1 -> num_frames ik <= 1 ->
  exists bones' morphs' cameras',
    VMDSortAllFrames srt
      (Some (mkFile hdr (frames_of_records bones) (frames_of_records morphs)
               (frames_of_records cameras) light shadow ik)) w
    = Done (mkFile hdr (frames_of_records bones')
              (frames_of_records morphs') (frames_of_records cameras')
              light shadow ik) w /\
    Permutation bones bones' /\
    StronglySorted
      (fun a b => frame_key VMDL_BONE a <= frame_key VMDL_BONE b) bones' /\
    Permutation morphs morphs' /\
    StronglySorted
      (fun a b => frame_key VMDL_MORPH a <= frame_key VMDL_MORPH b) morphs' /\
    Permutation cameras cameras' /\
    StronglySorted
      (fun a b => frame_key VMDL_CAMERA a <= frame_key VMDL_CAMERA b)
      cameras'.
Proof. apply sort_all_sorts_motion_data_aux. Qed.

Lemma sort_all_sorts_motion_data_witness :
  exists bones' morphs' cameras',
    VMDSortAllFrames insertion_sort
      (Some (mkFile (mkHeader VMDLIB_MAGIC (repeat x00 20))
               (frames_of_records
                  [bone_record 5; bone_record 1; bone_record 3;
                   bone_record 1])
               (frames_of_records [])
               (frames_of_records [camera_record 8; camera_record 2])
               (frames_of_records [light_record 6]) no_frames no_frames))
      (world_with "in.vmd" [])
    = Done (mkFile (mkHeader VMDLIB_MAGIC (repeat x00 20))
              (frames_of_records bones') (frames_of_records morphs')
              (frames_of_records cameras')
              (frames_of_records [light_record 6]) no_frames no_frames)
        (world_with "in.vmd" []) /\
    Permutation
      [bone_record 5; bone_record 1; bone_record 3; bone_record 1] bones' /\
    StronglySorted
      (fun a b => frame_key VMDL_BONE a <= frame_key VMDL_BONE b) bones' /\
    Permutation [] morphs' /\
    StronglySorted
      (fun a b => frame_key VMDL_MORPH a <= frame_key VMDL_MORPH b) morphs' /\
    Permutation [camera_record 8; camera_record 2] cameras' /\
    StronglySorted
      (fun a b => frame_key VMDL_CAMERA a <= frame_key VMDL_CAMERA b)
      cameras'.
Proof.
  apply (sort_all_sorts_motion_data insertion_sort
           (mkHeader VMDLIB_MAGIC (repeat x00 20))
           [bone_record 5; bone_record 1; bone_record 3; bone_record 1]
           [] [camera_record 8; camera_record 2]
           (frames_of_records [light_record 6]) no_frames no_frames
           0 0 0 (world_with "in.vmd" [])).
  - exact insertion_sort_contract.
  - repeat constructor.
  - repeat constructor; vm_compute; discriminate.
  - constructor.
  - constructor.
  - repeat constructor.
  - repeat constructor; vm_compute; discriminate.
  - simpl. lia.
  - simpl. lia.
  - simpl. lia.
Defined.

(* ================================================================== *)
(** ** The driver *)

Lemma wf_frames_of_records type (recs : list block) :
  0 <= type <= 5 -> Forall (is_record type) recs ->
  Z.of_nat (List.length recs) < 2 ^ 32 ->
  wf_frames (sizeof (category_layout type)) (frames_of_records recs).
Proof.
  intros Ht Hrec Hlen. unfold wf_frames, frames_of_records.
  cbn [num_frames frames]. split; [lia|].
  destruct recs as [|r recs]; [reflexivity|].
  split; [simpl List.length; lia|].
  pose proof (record_size_pos type Ht) as Hp.
  assert (Hrec' : Forall (fun x => List.length x
                            = Z.to_nat (sizeof (category_layout type)))
                    (r :: recs)).
  { eapply Forall_impl; [|exact Hrec]. unfold is_record. intros x Hx. lia. }
  rewrite (concat_records_length _ _ Hrec'). lia.
Qed.

Lemma motion_doc_wf nm bones morphs cameras lights shadows iks :
  List.length nm = 20%nat ->
  Forall (is_record VMDL_BONE) bones -> Forall (is_record VMDL_MORPH) morphs ->
  Forall (is_record VMDL_CAMERA) cameras ->
  Forall (is_record VMDL_LIGHT) lights ->
  Forall (is_record VMDL_SHADOW) shadows -> Forall (is_record VMDL_IK) iks ->
  announced_size (motion_doc nm bones morphs cameras lights shadows iks)
  < 2 ^ 32 ->
  wf_file (motion_doc nm bones morphs cameras lights shadows iks).
Proof.
  intros Hnm Rb Rm Rc Rl Rs Ri Hsz.
  unfold announced_size, motion_doc, frames_of_records in Hsz.
  cbn [bone_frames morph_frames camera_frames light_frames shadow_frames
       ik_frames num_frames] in Hsz.
  sizes.
  split; [split; [reflexivity | exact Hnm]|].
  unfold on_categories, motion_doc.
  cbn [bone_frames morph_frames camera_frames light_frames shadow_frames
       ik_frames].
  refine (conj _ (conj _ (conj _ (conj _ (conj _ _))))).
  - apply (wf_frames_of_records VMDL_BONE);
      [unfold VMDL_BONE; lia | assumption | lia].
  - apply (wf_frames_of_records VMDL_MORPH);
      [unfold VMDL_MORPH; lia | assumption | lia].
  - apply (wf_frames_of_records VMDL_CAMERA);
      [unfold VMDL_CAMERA; lia | assumption | lia].
  - apply (wf_frames_of_records VMDL_LIGHT);
      [unfold VMDL_LIGHT; lia | assumption | lia].
  - apply (wf_frames_of_records VMDL_SHADOW);
      [unfold VMDL_SHADOW; lia | assumption | lia].
  - apply (wf_frames_of_records VMDL_IK);
      [unfold VMDL_IK; lia | assumption | lia].
Qed.

Lemma announced_size_perm nm b m c l s i b' m' c' :
  Permutation b b' -> Permutation m m' -> Permutation c c' ->
  announced_size (motion_doc nm b' m' c' l s i)
  = announced_size (motion_doc nm b m c l s i).
Proof.
  intros Pb Pm Pc. unfold announced_size, motion_doc, frames_of_records.
  cbn [bone_frames morph_frames camera_frames light_frames shadow_frames
       ik_frames num_frames].
  rewrite (Permutation_length Pb), (Permutation_length Pm),
    (Permutation_length Pc). reflexivity.
Qed.

(** X16: the driver on motion data.  Given the name of a readable file
    that starts with the image of a document whose Bone, Morph and Camera
    records have frame indices within a window of 2^31 per category, whose
    Light, Shadow and ShowIK categories hold at most one record each and
    whose model name holds a NUL, [main] exits with status 0 and leaves in
    [output.vmd] the image of the same document with the Bone, Morph and
    Camera records in ascending order of frame index; [VMD_ERROR] is
    [VMDLIB_E_INIT], whatever it was before. *)
Theorem main_sorts_motion_file srt prog fname more nm
  bones morphs cameras lights shadows iks lb lm lc rest w :
  qsort_contract srt ->
  List.length nm = 20%nat -> has_nul nm = true ->
  Forall (is_record VMDL_BONE) bones ->
  Forall (fun r => lb <= frame_key VMDL_BONE r < lb + 2 ^ 31) bones ->
  Forall (is_record VMDL_MORPH) morphs ->
  Forall (fun r => lm <= frame_key VMDL_MORPH r < lm + 2 ^ 31) morphs ->
  Forall (is_record VMDL_CAMERA) cameras ->
  Forall (fun r => lc <= frame_key VMDL_CAMERA r < lc + 2 ^ 31) cameras ->
  Forall (is_record VMDL_LIGHT) lights -> (List.length lights <= 1)%nat ->
  Forall (is_record VMDL_SHADOW) shadows -> (List.length shadows <= 1)%nat ->
  Forall (is_record VMDL_IK) iks -> (List.length iks <= 1)%nat ->
  announced_size (motion_doc nm bones morphs cameras lights shadows iks)
  < 2 ^ 32 ->
  fs_read w fname
  = Some (mkDiskFile
            (file_image (motion_doc nm bones morphs cameras lights shadows iks)
             ++ rest) true) ->
  heap_ok w -> fs_writable w "output.vmd" = true ->
  exists bones' morphs' cameras' w',
    main srt (prog :: fname :: more) w = Done 0 w' /\
    fs_read w' "output.vmd"
    = Some (mkDiskFile
              (file_image
                 (motion_doc nm bones' morphs' cameras' lights shadows iks))
              true) /\
    VMD_ERROR w' = VMDLIB_E_INIT /\
    Permutation bones bones' /\
    StronglySorted
      (fun a b => frame_key VMDL_BONE a <= frame_key VMDL_BONE b) bones' /\
    Permutation morphs morphs' /\
    StronglySorted
      (fun a b => frame_key VMDL_MORPH a <= frame_key VMDL_MORPH b) morphs' /\
    Permutation cameras cameras' /\
    StronglySorted
      (fun a b => frame_key VMDL_CAMERA a <= frame_key VMDL_CAMERA b)
      cameras'.
Proof.
  intros Hq Hnm Hnul Rb Wb Rm Wm Rc Wc Rl Ll Rs Ls Ri Li Hsz Hf Hh Hw.
  pose proof (motion_doc_wf nm bones morphs cameras lights shadows iks
                Hnm Rb Rm Rc Rl Rs Ri Hsz) as Hwf.
  destruct (VMDLoadFromFile_image _ fname rest (reset_error w) Hwf Hsz Hf Hh)
    as (w1 & El & (E1 & F1 & G1 & _)).
  destruct (sort_all_sorts_motion_data_aux srt (mkHeader VMDLIB_MAGIC nm)
              bones morphs cameras (frames_of_records lights)
              (frames_of_records shadows) (frames_of_records iks)
              lb lm lc w1 Hq Rb Wb Rm Wm Rc Wc)
    as (bones' & morphs' & cameras' & Es & Pb & Sb & Pm & Sm & Pc & Sc);
    try (cbn [frames_of_records num_frames]; lia).
  exists bones', morphs', cameras',
    (written "output.vmd"
       (file_image (motion_doc nm bones' morphs' cameras' lights shadows iks))
       w1).
  assert (Hwf' : wf_file
                   (motion_doc nm bones' morphs' cameras' lights shadows iks)).
  { apply motion_doc_wf; try assumption.
    - eapply Permutation_Forall; eassumption.
    - eapply Permutation_Forall; eassumption.
    - eapply Permutation_Forall; eassumption.
    - rewrite (announced_size_perm nm bones morphs cameras lights shadows
                 iks bones' morphs' cameras' Pb Pm Pc). exact Hsz. }
  split; [|split; [|split; [|tauto]]].
  - unfold main. mstep_io. fold (reset_error w).
    rewrite El. cbv beta iota.
    fold (motion_doc nm bones' morphs' cameras' lights shadows iks) in Es.
    unfold motion_doc at 1. rewrite Es. cbv beta iota.
    unfold VMDDisplayData. unfold motion_doc at 1.
    cbn [file_header model_name]. rewrite Hnul. mstep_io.
    rewrite (VMDWriteToFile_wf _ "output.vmd" w1 (proj2 Hwf'))
      by (rewrite G1; exact Hw).
    reflexivity.
  - unfold written. cbn [fs_read]. rewrite String.eqb_refl. reflexivity.
  - unfold written. cbn [VMD_ERROR]. rewrite E1. reflexivity.
Qed.

Lemma main_sorts_motion_file_witness :
  exists bones' morphs' cameras' w',
    main insertion_sort ["example"; "in.vmd"]%string
      (world_with "in.vmd" (file_image sample_motion_doc ++ [x09]))
    = Done 0 w' /\
    fs_read w' "output.vmd"
    = Some (mkDiskFile
              (file_image
                 (motion_doc (repeat x00 20) bones' morphs' cameras'
                    [light_record 6] [] []))
              true) /\
    VMD_ERROR w' = VMDLIB_E_INIT /\
    Permutation
      [bone_record 5; bone_record 1; bone_record 3; bone_record 1] bones' /\
    StronglySorted
      (fun a b => frame_key VMDL_BONE a <= frame_key VMDL_BONE b) bones' /\
    Permutation [] morphs' /\
    StronglySorted
      (fun a b => frame_key VMDL_MORPH a <= frame_key VMDL_MORPH b) morphs' /\
    Permutation [camera_record 8; camera_record 2] cameras' /\
    StronglySorted
      (fun a b => frame_key VMDL_CAMERA a <= frame_key VMDL_CAMERA b)
      cameras'.
Proof.
  apply (main_sorts_motion_file insertion_sort "example" "in.vmd" []
           (repeat x00 20)
           [bone_record 5; bone_record 1; bone_record 3; bone_record 1] []
           [camera_record 8; camera_record 2] [light_record 6] [] []
           0 0 0 [x09]
           (world_with "in.vmd" (file_image sample_motion_doc ++ [x09]))).
  - exact insertion_sort_contract.
  - reflexivity.
  - reflexivity.
  - repeat constructor.
  - repeat constructor; vm_compute; discriminate.
  - constructor.
  - constructor.
  - repeat constructor.
  - repeat constructor; vm_compute; discriminate.
  - repeat constructor.
  - simpl. lia.
  - constructor.
  - simpl. lia.
  - constructor.
  - simpl. lia.
  - vm_compute. reflexivity.
  - reflexivity.
  - constructor.
  - reflexivity.
Defined.

(** X17: when [main] exits with [EXIT_FAILURE] it has written no file, and
    [VMD_ERROR] is [VMDLIB_E_INIT] (no argument, or the file could not be
    read), [VMDLIB_E_FH], [VMDLIB_E_ME] or [VMDLIB_E_FT]. *)
Theorem main_failure_writes_nothing srt argv w w' :
  main srt argv w = Done EXIT_FAILURE w' ->
  fs_read w' = fs_read w /\
  (VMD_ERROR w' = VMDLIB_E_INIT \/ VMD_ERROR w' = VMDLIB_E_FH \/
   VMD_ERROR w' = VMDLIB_E_ME \/ VMD_ERROR w' = VMDLIB_E_FT).
Proof.
  unfold main. mstep_io. fold (reset_error w).
  destruct argv as [|prog [|fname more]].
  - discriminate.
  - intros H. injection H as <-. split; [reflexivity|]. left. reflexivity.
  - destruct (VMDLoadFromFile fname (reset_error w)) as [[d|] w1|] eqn:El;
      cbv beta iota; [| |discriminate].
    + destruct (VMDSortAllFrames srt (Some d) w1) as [d' w2|];
        [|discriminate].
      unfold VMDDisplayData.
      destruct (has_nul (model_name (file_header d'))); mstep_io;
        [|discriminate].
      destruct (VMDWriteToFile (Some d') "output.vmd" w2) as [b w3|];
        [|discriminate].
      unfold VMDReleaseVMDFile. mstep_io. discriminate.
    + intros H. injection H as <-.
      apply load_NULL_inv in El.
      destruct El as (F & _ & Cases). split; [exact F|].
      destruct Cases as [[_ E]|(f & _ & [[_ E]|[(_ & _ & E)|(_ & _ & _ & _ & E)]])];
        rewrite E; auto.
Qed.

Lemma main_failure_writes_nothing_witness :
  fs_read (mkWorld VMDLIB_E_FH (fun _ => None) (fun _ => true) [])
  = fs_read (mkWorld VMDLIB_E_IV (fun _ => None) (fun _ => true) []) /\
  (VMD_ERROR (mkWorld VMDLIB_E_FH (fun _ => None) (fun _ => true) [])
   = VMDLIB_E_INIT \/
   VMD_ERROR (mkWorld VMDLIB_E_FH (fun _ => None) (fun _ => true) [])
   = VMDLIB_E_FH \/
   VMD_ERROR (mkWorld VMDLIB_E_FH (fun _ => None) (fun _ => true) [])
   = VMDLIB_E_ME \/
   VMD_ERROR (mkWorld VMDLIB_E_FH (fun _ => None) (fun _ => true) [])
   = VMDLIB_E_FT).
Proof.
  apply (main_failure_writes_nothing insertion_sort
           ["example"; "missing.vmd"]%string
           (mkWorld VMDLIB_E_IV (fun _ => None) (fun _ => true) [])).
  reflexivity.
Defined.

(** X18: the exit status of [main] does not tell whether the output was
    written.  When the file loads and sorts and the model name holds a NUL
    but [output.vmd] cannot be opened for writing, [main] still exits with
    status 0; no file has changed and [VMD_ERROR] is [VMDLIB_E_FH]. *)
Theorem main_exit_status_ignores_write_failure srt prog fname more w
  d w1 d' w2 :
  VMDLoadFromFile fname (reset_error w) = Done (Some d) w1 ->
  VMDSortAllFrames srt (Some d) w1 = Done d' w2 ->
  has_nul (model_name (file_header d)) = true ->
  fs_writable w "output.vmd" = false ->
  exists w',
    main srt (prog :: fname :: more) w = Done 0 w' /\
    VMD_ERROR w' = VMDLIB_E_FH /\ fs_read w' = fs_read w.
Proof.
  intros El Es Hnul Hw.
  pose proof (VMDLoadFromFile_inv _ _ _ _ El) as [_ (_ & F1 & G1 & _)].
  pose proof (VMDSortAllFrames_keeps _ _ _ _ _ Es) as (-> & Hh & _).
  unfold main. mstep_io. fold (reset_error w).
  rewrite El. cbv beta iota. rewrite Es. cbv beta iota.
  unfold VMDDisplayData. rewrite Hh, Hnul. mstep_io.
  unfold VMDWriteToFile. mstep_io.
  replace (fs_writable w1 "output.vmd") with false
    by (rewrite G1; symmetry; exact Hw).
  mstep_io. unfold VMDReleaseVMDFile. mstep_io.
  eexists. split; [reflexivity|]. cbn [VMD_ERROR fs_read].
  split; [reflexivity | exact F1].
Qed.

Lemma main_exit_status_ignores_write_failure_witness :
  exists w',
    main insertion_sort ["example"; "in.vmd"]%string
      (mkWorld VMDLIB_E_IV
         (fun n => if String.eqb n "in.vmd"
                   then Some (mkDiskFile (file_image two_bones_doc) true)
                   else None)
         (fun _ => false) [])
    = Done 0 w' /\
    VMD_ERROR w' = VMDLIB_E_FH /\
    fs_read w'
    = fs_read
        (mkWorld VMDLIB_E_IV
           (fun n => if String.eqb n "in.vmd"
                     then Some (mkDiskFile (file_image two_bones_doc) true)
                     else None)
           (fun _ => false) []).
Proof.
  apply (main_exit_status_ignores_write_failure insertion_sort
           "example" "in.vmd" []
           (mkWorld VMDLIB_E_IV
              (fun n => if String.eqb n "in.vmd"
                        then Some (mkDiskFile (file_image two_bones_doc) true)
                        else None)
              (fun _ => false) [])
           two_bones_doc
           (mkWorld VMDLIB_E_INIT
              (fun n => if String.eqb n "in.vmd"
                        then Some (mkDiskFile (file_image two_bones_doc) true)
                        else None)
              (fun _ => false) [])
           two_bones_sorted_doc
           (mkWorld VMDLIB_E_INIT
              (fun n => if String.eqb n "in.vmd"
                        then Some (mkDiskFile (file_image two_bones_doc) true)
                        else None)
              (fun _ => false) [])).
  - vm_compute. reflexivity.
  - vm_compute. reflexivity.
  - reflexivity.
  - reflexivity.
Defined.

(* ================================================================== *)
(** ** Writing a loaded document *)

Lemma loaded_frames_written (size : Z) (fr : VMDFrames) :
  0 < size -> loaded_frames size fr ->
  storage_suffices size fr = (size * num_frames fr <? 2 ^ 32) /\
  (size * num_frames fr < 2 ^ 32 -> written_frames size fr = frames_image fr).
Proof.
  unfold loaded_frames, storage_suffices, written_frames, frames_image.
  intros Hs [Hr Hf].
  destruct (frames fr) as [blk|].
  - destruct Hf as [Hn Hl]. rewrite Hl.
    pose proof (Z.mod_pos_bound (size * num_frames fr) (2 ^ 32) ltac:(lia))
      as Hb.
    unfold u32 in *.
    destruct (size * num_frames fr <? 2 ^ 32) eqn:E.
    + apply Z.ltb_lt in E. rewrite Z.mod_small by nia.
      split.
      * rewrite andb_true_iff, !Z.leb_le. nia.
      * intros _. rewrite Z.mod_small in Hl by nia.
        rewrite <- Hl, Nat2Z.id, firstn_all. reflexivity.
    + apply Z.ltb_ge in E. split; [|lia].
      rewrite andb_false_iff, !Z.leb_gt. right. lia.
  - rewrite Hf, Z.mul_0_r. split; [reflexivity|]. intros _. reflexivity.
Qed.

(** X19: a document returned by the loader can be written exactly when no
    category announces 2^32 bytes or more.  Then the writer emits the
    document's image without error; otherwise the storage of the
    offending category is shorter than its count says (the loader took
    its size modulo 2^32) and the writer reads past it. *)
Theorem write_of_loaded_document fname out w d w1 :
  VMDLoadFromFile fname w = Done (Some d) w1 ->
  fs_writable w1 out = true ->
  VMDWriteToFile (Some d) out w1
  = if fits_u32 d then Done true (written out (file_image d) w1)
    else Undefined OutOfBoundsRead.
Proof.
  intros H Hw.
  apply VMDLoadFromFile_inv in H. destruct H as [[_ Hc] _].
  destruct Hc as (B & Mo & C & L & S & I).
  rewrite VMDWriteToFile_outcome by exact Hw.
  unfold fits_u32, file_image.
  apply loaded_frames_written in B; [|reflexivity].
  apply loaded_frames_written in Mo; [|reflexivity].
  apply loaded_frames_written in C; [|reflexivity].
  apply loaded_frames_written in L; [|reflexivity].
  apply loaded_frames_written in S; [|reflexivity].
  apply loaded_frames_written in I; [|reflexivity].
  destruct B as [-> B], Mo as [-> Mo], C as [-> C], L as [-> L],
    S as [-> S], I as [-> I].
  repeat
    match goal with
    | |- context [?a <? 2 ^ 32] =>
        let E := fresh "E" in
        destruct (a <? 2 ^ 32) eqn:E;
        [apply Z.ltb_lt in E | cbn [andb]; rewrite ?andb_false_r; reflexivity]
    end.
  cbn [andb].
  rewrite (B E), (Mo E0), (C E1), (L E2), (S E3), (I E4). reflexivity.
Qed.

Lemma write_of_loaded_document_witness :
  VMDWriteToFile (Some wrapped_shadow_doc) "out.vmd"
    (world_with "in.vmd" wrapped_shadow_file)
  = if fits_u32 wrapped_shadow_doc
    then Done true
           (written "out.vmd" (file_image wrapped_shadow_doc)
              (world_with "in.vmd" wrapped_shadow_file))
    else Undefined OutOfBoundsRead.
Proof.
  apply (write_of_loaded_document "in.vmd" "out.vmd"
           (world_with "in.vmd" wrapped_shadow_file)).
  - vm_compute. reflexivity.
  - reflexivity.
Defined.
